(** * frourio-framework: the kaname layer

    A shallow embedding of the parts of [backend-api/@frouvel/kaname] that
    carry behaviour of their own: the error taxonomy and its conversion to
    RFC 9457 Problem Details, the [ApiResponse] error facade, the
    configuration helpers, the service container and the database manager.

    JavaScript objects that the code uses as string-keyed records are finite
    maps ([gmap string _]) where only their members matter and association
    lists with a prototype where the code walks them with [in]. Code that
    throws returns a sum whose left side is the thrown value. *)

From Stdlib Require Import ZArith Ascii.
From stdpp Require Import gmap strings list pretty.

Open Scope Z_scope.
Open Scope string_scope.

Set Warnings "-register-all".

(** ** JavaScript values *)

Module Js.

Inductive Primitive : Type :=
| PBool (b : bool)
| PNumber (n : Z)
| PString (s : string).

(** Objects keep their own properties in insertion order and point to their
    prototype ([Null] ends the chain). Arrays are objects whose own
    properties are their indices and [length]. Numbers are the integral
    ones; accessors and proxies are not represented. *)
Inductive Value : Type :=
| Undefined
| Null
| Prim (p : Primitive)
| Object (props : list (string * Value)) (proto : Value)
| Function (props : list (string * Value)) (proto : Value)
| Wrapper (p : Primitive) (props : list (string * Value)) (proto : Value).

Definition Bool (b : bool) : Value := Prim (PBool b).
Definition Num (n : Z) : Value := Prim (PNumber n).
Definition Str (s : string) : Value := Prim (PString s).

Inductive TypeTag : Type :=
| TUndefined | TObject | TBoolean | TNumber | TString | TFunction.

(** [typeof v] *)
Definition typeof (v : Value) : TypeTag :=
  match v with
  | Undefined => TUndefined
  | Null => TObject
  | Prim (PBool _) => TBoolean
  | Prim (PNumber _) => TNumber
  | Prim (PString _) => TString
  | Object _ _ => TObject
  | Function _ _ => TFunction
  | Wrapper _ _ _ => TObject
  end.

Definition is_object_tag (t : TypeTag) : bool :=
  match t with TObject => true | _ => false end.

(** ToBoolean, as [!v], [v && _] and [v || _] apply it. *)
Definition truthy (v : Value) : bool :=
  match v with
  | Undefined | Null => false
  | Prim (PBool b) => b
  | Prim (PNumber n) => negb (Z.eqb n 0)
  | Prim (PString s) => negb (String.eqb s "")
  | Object _ _ | Function _ _ | Wrapper _ _ _ => true
  end.

(** [s || d] for an optional string [s]: [undefined] and the empty string
    are the falsy ones. *)
Definition str_or (s : option string) (d : string) : string :=
  match s with
  | Some x => if String.eqb x "" then d else x
  | None => d
  end.

Definition string_truthy (s : string) : bool := negb (String.eqb s "").

(** First entry under a key of a property list. *)
Fixpoint assoc {A : Type} (k : string) (l : list (string * A)) : option A :=
  match l with
  | [] => None
  | (k', v) :: l' => if String.eqb k k' then Some v else assoc k l'
  end.


(** The own properties a wrapped string has besides the stored ones: its
    length and its characters under their indices. *)
Definition string_own (s : string) (k : string) : option Value :=
  if String.eqb k "length" then Some (Num (Z.of_nat (String.length s)))
  else
    match List.find (fun i => String.eqb (pretty i) k)
                    (seq 0 (String.length s)) with
    | Some i => Some (Str (String.substring i 1 s))
    | None => None
    end.

Definition wrapper_own (p : Primitive) (k : string) : option Value :=
  match p with
  | PString s => string_own s k
  | _ => None
  end.

(** [get_property k v] is [Some x] when [k in v] holds, [x] being [v[k]]:
    the own property if there is one, else what the prototype chain has. *)
Fixpoint get_property (k : string) (v : Value) : option Value :=
  match v with
  | Object props proto | Function props proto =>
      match assoc k props with
      | Some x => Some x
      | None => get_property k proto
      end
  | Wrapper p props proto =>
      match wrapper_own p k with
      | Some x => Some x
      | None =>
          match assoc k props with
          | Some x => Some x
          | None => get_property k proto
          end
      end
  | _ => None
  end.

(** [k in v], for [v] an object. *)
Definition has_property (k : string) (v : Value) : bool :=
  match get_property k v with Some _ => true | None => false end.

(** [s.split(sep)] for a one-character separator. *)
Fixpoint split_go (sep : Ascii.ascii) (cur : string) (s : string) : list string :=
  match s with
  | EmptyString => [cur]
  | String.String c rest =>
      if Ascii.eqb c sep then cur :: split_go sep "" rest
      else split_go sep (cur ++ String.String c "") rest
  end.

Definition split (sep : Ascii.ascii) (s : string) : list string :=
  split_go sep "" s.

(** A [Date], with the text [toISOString()] gives for it. *)
Record Date : Type := mkDate {
  time_value : Z;
  toISOString : string
}.

End Js.

(** ** The error taxonomy (error/FrourioFrameworkError.ts) *)

Module FrameworkError.
Import Js.

Inductive ErrorCode : Type :=
| INTERNAL_SERVER_ERROR
| VALIDATION_ERROR
| NOT_FOUND
| UNAUTHORIZED
| FORBIDDEN
| BAD_REQUEST
| USER_ALREADY_EXISTS
| USER_NOT_FOUND
| INVALID_CREDENTIALS
| USER_NOT_VERIFIED
| WEAK_PASSWORD
| INVALID_TOKEN
| TOKEN_EXPIRED
| ADMIN_NOT_FOUND
| ADMIN_ALREADY_EXISTS
| INSUFFICIENT_PERMISSIONS
| EMAIL_SEND_FAILED
| INVALID_EMAIL_FORMAT
| DATABASE_NOT_INITIALIZED
| DATABASE_CONNECTION_NOT_CONFIGURED
| DATABASE_UNSUPPORTED_DRIVER
| DATABASE_CLIENT_UNAVAILABLE
| DATABASE_CLIENT_CREATION_FAILED.

(** The string each member of the enum stands for. *)
Definition code_value (c : ErrorCode) : string :=
  match c with
  | INTERNAL_SERVER_ERROR => "INTERNAL_SERVER_ERROR"
  | VALIDATION_ERROR => "VALIDATION_ERROR"
  | NOT_FOUND => "NOT_FOUND"
  | UNAUTHORIZED => "UNAUTHORIZED"
  | FORBIDDEN => "FORBIDDEN"
  | BAD_REQUEST => "BAD_REQUEST"
  | USER_ALREADY_EXISTS => "USER_ALREADY_EXISTS"
  | USER_NOT_FOUND => "USER_NOT_FOUND"
  | INVALID_CREDENTIALS => "INVALID_CREDENTIALS"
  | USER_NOT_VERIFIED => "USER_NOT_VERIFIED"
  | WEAK_PASSWORD => "WEAK_PASSWORD"
  | INVALID_TOKEN => "INVALID_TOKEN"
  | TOKEN_EXPIRED => "TOKEN_EXPIRED"
  | ADMIN_NOT_FOUND => "ADMIN_NOT_FOUND"
  | ADMIN_ALREADY_EXISTS => "ADMIN_ALREADY_EXISTS"
  | INSUFFICIENT_PERMISSIONS => "INSUFFICIENT_PERMISSIONS"
  | EMAIL_SEND_FAILED => "EMAIL_SEND_FAILED"
  | INVALID_EMAIL_FORMAT => "INVALID_EMAIL_FORMAT"
  | DATABASE_NOT_INITIALIZED => "DATABASE_NOT_INITIALIZED"
  | DATABASE_CONNECTION_NOT_CONFIGURED => "DATABASE_CONNECTION_NOT_CONFIGURED"
  | DATABASE_UNSUPPORTED_DRIVER => "DATABASE_UNSUPPORTED_DRIVER"
  | DATABASE_CLIENT_UNAVAILABLE => "DATABASE_CLIENT_UNAVAILABLE"
  | DATABASE_CLIENT_CREATION_FAILED => "DATABASE_CLIENT_CREATION_FAILED"
  end.

Definition ErrorCodeToHttpStatus (c : ErrorCode) : Z :=
  match c with
  | INTERNAL_SERVER_ERROR => 500
  | VALIDATION_ERROR => 400
  | NOT_FOUND => 404
  | UNAUTHORIZED => 401
  | FORBIDDEN => 403
  | BAD_REQUEST => 400
  | USER_ALREADY_EXISTS => 409
  | USER_NOT_FOUND => 404
  | INVALID_CREDENTIALS => 401
  | USER_NOT_VERIFIED => 401
  | WEAK_PASSWORD => 400
  | INVALID_TOKEN => 401
  | TOKEN_EXPIRED => 401
  | ADMIN_NOT_FOUND => 404
  | ADMIN_ALREADY_EXISTS => 409
  | INSUFFICIENT_PERMISSIONS => 403
  | EMAIL_SEND_FAILED => 500
  | INVALID_EMAIL_FORMAT => 400
  | DATABASE_NOT_INITIALIZED => 500
  | DATABASE_CONNECTION_NOT_CONFIGURED => 500
  | DATABASE_UNSUPPORTED_DRIVER => 500
  | DATABASE_CLIENT_UNAVAILABLE => 500
  | DATABASE_CLIENT_CREATION_FAILED => 500
  end.

(** Modelled from the spec: the constant [DEFAULT_PROBLEM_TYPE] of
    [commonTypesWithClient/ProblemDetails.types], a file that is not among
    the sources. It is the type RFC 9457 gives a problem that names none,
    the one the documentation's Problem Details examples carry. *)
Definition DEFAULT_PROBLEM_TYPE : string := "about:blank".

(** A Problem Details object: its members by name. *)
Abbreviation ProblemDetails := (gmap string Value).

(** The constructor's argument. [details] is given by its entries, in the
    order [Object.entries] lists them. *)
Record Args : Type := mkArgs {
  arg_message : string;
  arg_code : ErrorCode;
  arg_details : option (list (string * Value));
  arg_instance : option string;
  arg_typeUri : option string
}.

Record AbstractFrourioFrameworkError : Type := mkError {
  name : string;
  message : string;
  code : ErrorCode;
  httpStatusCode : Z;
  details : option (list (string * Value));
  timestamp : Date;
  instance : option string;
  typeUri : option string
}.

(** [new C(args)] for a subclass [C] named [class_name], at the moment
    [now]. *)
Definition construct (class_name : string) (args : Args) (now : Date)
  : AbstractFrourioFrameworkError :=
  {| name := class_name;
     message := arg_message args;
     code := arg_code args;
     httpStatusCode := ErrorCodeToHttpStatus (arg_code args);
     details := arg_details args;
     timestamp := now;
     instance := arg_instance args;
     typeUri := arg_typeUri args |}.

(** [Object.entries(o).forEach(([key, value]) => { target[key] = value })] *)
Definition assign_entries (entries : list (string * Value))
  (target : ProblemDetails) : ProblemDetails :=
  foldl (fun pd kv => <[kv.1 := kv.2]> pd) target entries.

Definition toProblemDetails (e : AbstractFrourioFrameworkError)
  : ProblemDetails :=
  let problemDetails : ProblemDetails :=
    <["detail" := Str (message e)]>
      (<["status" := Num (httpStatusCode e)]>
         (<["title" := Str (code_value (code e))]>
            (<["type" := Str (str_or (typeUri e) DEFAULT_PROBLEM_TYPE)]> ∅))) in
  let problemDetails :=
    match instance e with
    | Some i => if string_truthy i then <["instance" := Str i]> problemDetails
                else problemDetails
    | None => problemDetails
    end in
  let problemDetails := <["code" := Str (code_value (code e))]> problemDetails in
  let problemDetails :=
    <["timestamp" := Str (toISOString (timestamp e))]> problemDetails in
  match details e with
  | Some d => assign_entries d problemDetails
  | None => problemDetails
  end.

Definition isErrorCode (e : AbstractFrourioFrameworkError) (c : ErrorCode)
  : bool :=
  String.eqb (code_value (code e)) (code_value c).

Definition isClientError (e : AbstractFrourioFrameworkError) : bool :=
  (400 <=? httpStatusCode e)%Z && (httpStatusCode e <? 500)%Z.

Definition isServerError (e : AbstractFrourioFrameworkError) : bool :=
  (500 <=? httpStatusCode e)%Z.

End FrameworkError.

(** ** The response facade (http/ApiResponse.ts) *)

Module ApiResponse.
Import Js FrameworkError.

(** What a handler may be given as [error: unknown]: [instanceof] tells a
    framework error from another [Error] from anything else. A value that is
    no [Error] is kept as the text [String(error)] gives for it, which is all
    the code reads of it. *)
Inductive Thrown : Type :=
| ThrownFramework (e : AbstractFrourioFrameworkError)
| ThrownError (error_name error_message : string)
| ThrownOther (text : string).

Record CreateProblemDetailsOptions : Type := mkOptions {
  opt_type : option string;
  opt_title : string;
  opt_status : Z;
  opt_detail : string;
  opt_instance : option string;
  opt_extensions : option (list (string * Value))
}.

Definition createProblemDetails (options : CreateProblemDetailsOptions)
  : ProblemDetails :=
  let problemDetails : ProblemDetails :=
    <["detail" := Str (opt_detail options)]>
      (<["status" := Num (opt_status options)]>
         (<["title" := Str (opt_title options)]>
            (<["type" := Str (str_or (opt_type options) DEFAULT_PROBLEM_TYPE)]> ∅))) in
  let problemDetails :=
    match opt_instance options with
    | Some i => if string_truthy i then <["instance" := Str i]> problemDetails
                else problemDetails
    | None => problemDetails
    end in
  match opt_extensions options with
  | Some ext => assign_entries ext problemDetails
  | None => problemDetails
  end.

Definition errorToProblemDetails (error : Thrown) : ProblemDetails :=
  match error with
  | ThrownFramework e => toProblemDetails e
  | ThrownError error_name error_message =>
      createProblemDetails
        {| opt_type := None;
           opt_title := "Internal Server Error";
           opt_status := 500;
           opt_detail := str_or (Some error_message) "An unexpected error occurred";
           opt_instance := None;
           opt_extensions := Some [("errorName", Str error_name)] |}
  | ThrownOther text =>
      createProblemDetails
        {| opt_type := None;
           opt_title := "Internal Server Error";
           opt_status := 500;
           opt_detail := "An unexpected error occurred";
           opt_instance := None;
           opt_extensions := Some [("error", Str text)] |}
  end.

(** [v ?? d], [v] being a member that may be missing. *)
Definition nullish_or (v : option Value) (d : Value) : Value :=
  match v with
  | None | Some Undefined | Some Null => d
  | Some x => x
  end.

Record ErrorResponse : Type := mkResponse {
  status : Value;
  body : ProblemDetails
}.

(** [defaultStatus] is [None] when the caller leaves it out. *)
Definition returnProblemDetails (error : Thrown) (defaultStatus : option Z)
  : ErrorResponse :=
  let defaultStatus := default 500 defaultStatus in
  let problemDetails := errorToProblemDetails error in
  let status := nullish_or (problemDetails !! "status") (Num defaultStatus) in
  {| status := status; body := problemDetails |}.

Definition returnGetError (error : Thrown) : ErrorResponse :=
  returnProblemDetails error (Some 404).

Definition returnPostError (error : Thrown) : ErrorResponse :=
  returnProblemDetails error (Some 500).

Definition returnPutError (error : Thrown) : ErrorResponse :=
  returnProblemDetails error (Some 500).

Definition returnPatchError (error : Thrown) : ErrorResponse :=
  returnProblemDetails error (Some 403).

Definition returnDeleteError (error : Thrown) : ErrorResponse :=
  returnProblemDetails error (Some 500).

(** The members of [ApiResponse.method], and [ApiResponse.error]. *)
Inductive Handler : Type :=
| error_handler (defaultStatus : option Z)
| method_get | method_post | method_put | method_patch | method_delete.

Definition handle (h : Handler) (error : Thrown) : ErrorResponse :=
  match h with
  | error_handler d => returnProblemDetails error d
  | method_get => returnGetError error
  | method_post => returnPostError error
  | method_put => returnPutError error
  | method_patch => returnPatchError error
  | method_delete => returnDeleteError error
  end.

End ApiResponse.

(** ** Configuration helpers (config/defineConfig.ts, config/config.ts) *)

Module Config.
Import Js.

Inductive Exn : Type :=
| ZodError (issues : Value)
| TypeError (message : string)
| Raised (v : Value).


Section DefineConfig.

(** The prototype the realm gives the wrapper object of a primitive. *)
Variable wrapper_prototype : Primitive -> Value.



End DefineConfig.

Section Helpers.

(** [app.make], the container's resolution, which throws for a key it
    cannot resolve. *)
Variable make : string -> Exn + Value.

(** One turn of the loop over the key's segments: the guard
    [value && typeof value === 'object' && k in value], then [value[k]];
    [None] is the branch that returns early. *)
Definition descend (value : Value) (k : string) : option Value :=
  if truthy value && is_object_tag (typeof value) && has_property k value
  then Some (default Undefined (get_property k value))
  else None.

Fixpoint walk (keys : list string) (value : Value) : option Value :=
  match keys with
  | [] => Some value
  | k :: keys' =>
      match descend value k with
      | Some value' => walk keys' value'
      | None => None
      end
  end.

Definition config (key : string) (defaultValue : Value) : Exn + Value :=
  match make "config" with
  | inl e => inl e
  | inr configs =>
      let keys := split "." key in
      match walk keys configs with
      | Some value => inr value
      | None => inr defaultValue
      end
  end.

Definition hasConfig (key : string) : bool :=
  match make "config" with
  | inl _ => false
  | inr configs =>
      let keys := split "." key in
      match walk keys configs with
      | Some _ => true
      | None => false
      end
  end.

End Helpers.

(** The walk as the specification words it: from the config object, segment
    by segment, each segment present in a value that is an object. *)
Inductive is_object : Value -> Prop :=
| is_object_plain props proto : is_object (Object props proto)
| is_object_wrapper p props proto : is_object (Wrapper p props proto).

Inductive reaches : Value -> list string -> Value -> Prop :=
| reaches_here v : reaches v [] v
| reaches_segment v k keys x r :
    is_object v ->
    get_property k v = Some x ->
    reaches x keys r ->
    reaches v (k :: keys) r.

End Config.

(** ** The service container *)

Module Container.

Section Application.

(** What factories act on outside the container, and what they build. *)
Context {World Service : Type}.

(** Modelled from the spec: a binding of the container of
    [foundation/Application.ts], a file that is not among the sources: the
    factory that constructs the service, and whether the binding is a
    singleton. *)
Record Binding : Type := mkBinding {
  factory : World -> Service * World;
  shared : bool
}.

(** Modelled from the spec: the container of [foundation/Application.ts], a
    file that is not among the sources. It is a runtime registry mapping
    string keys to lazily-constructed service instances: [bind] and
    [singleton] record a factory under a key, [make] resolves a key by
    running its factory, and a singleton's instance is built once and kept
    (the documentation: [bind] creates a new instance each time, [singleton]
    gives the same instance every time). *)
Record Application : Type := mkApplication {
  bindings : gmap string Binding;
  instances : gmap string Service
}.

(** A container at work: the world its factories act on, and the keys whose
    factory has run so far, oldest first. *)
Record Run : Type := mkRun {
  app : Application;
  world : World;
  invoked : list string
}.

(** Modelled from the spec: registering, which [Application.ts] does in
    [bind] and [singleton], records the binding under the key and does
    nothing else. *)
Definition register (key : string) (b : Binding) (r : Run) : Run :=
  {| app := {| bindings := <[key := b]> (bindings (app r));
               instances := instances (app r) |};
     world := world r;
     invoked := invoked r |}.

(** Modelled from the spec: [bind(key, factory)] of [Application.ts], a
    binding that gives a new instance at each resolution. *)
Definition bind (key : string) (f : World -> Service * World) (r : Run) : Run :=
  register key {| factory := f; shared := false |} r.

(** Modelled from the spec: [singleton(key, factory)] of [Application.ts],
    a binding that gives the same instance at every resolution. *)
Definition singleton (key : string) (f : World -> Service * World) (r : Run)
  : Run :=
  register key {| factory := f; shared := true |} r.

(** Modelled from the spec: [has(key)] of [Application.ts]. *)
Definition has (key : string) (r : Run) : bool :=
  bool_decide (is_Some (bindings (app r) !! key)).

(** Running a binding's factory. *)
Definition build (key : string) (b : Binding) (r : Run) : Service * Run :=
  let '(service, w) := factory b (world r) in
  (service, {| app := app r; world := w; invoked := invoked r ++ [key] |}).

(** Modelled from the spec: [make(key)] of [Application.ts]. The instance
    is constructed at resolution; a singleton's is kept and given again.
    [None] is the error for a key that was never bound. *)
Definition make (key : string) (r : Run) : option Service * Run :=
  match bindings (app r) !! key with
  | None => (None, r)
  | Some b =>
      if shared b then
        match instances (app r) !! key with
        | Some service => (Some service, r)
        | None =>
            let '(service, r') := build key b r in
            (Some service,
             {| app := {| bindings := bindings (app r');
                          instances := <[key := service]> (instances (app r')) |};
                world := world r';
                invoked := invoked r' |})
        end
      else
        let '(service, r') := build key b r in (Some service, r')
  end.

(** Resolving a list of keys one after the other. *)
Fixpoint make_all (keys : list string) (r : Run) : Run :=
  match keys with
  | [] => r
  | k :: keys' => make_all keys' (make k r).2
  end.

End Application.

Arguments Binding : clear implicits.
Arguments Application : clear implicits.
Arguments Run : clear implicits.

End Container.

(** ** The database manager (database/DatabaseManager.ts, database/DB.ts) *)

Module Database.
Import Js.

Record ConnectionDetails : Type := mkConnectionDetails {
  host : string;
  port : Z;
  user : string;
  password : string;
  database : string
}.

Record PoolConfig : Type := mkPoolConfig {
  min : option Z;
  max : option Z;
  idleTimeoutMillis : option Z
}.

Record ConnectionConfig : Type := mkConnectionConfig {
  driver : string;
  url : option string;
  connection : option ConnectionDetails;
  pool : option PoolConfig
}.

(** What the manager, the facade and the drivers throw
    (database/DatabaseErrors.ts); [Thrown] is any other value that foreign
    code throws or rejects with. *)
Inductive Exn : Type :=
| DatabaseNotInitializedError
| DatabaseConnectionNotConfiguredError (connection : string)
| UnsupportedDatabaseDriverError (driver : string)
| DatabaseClientCreationError (driver : string) (cause : Exn)
| JsError (message : string)
| Thrown (v : Value).

(** The calls that leave the manager, in the order they are made: the three
    methods of a driver, under the name the driver was found by, and
    [console.error]. *)
Inductive Event : Type :=
| CreateClientCalled (driver : string) (config : ConnectionConfig)
    (name : string)
| TransactionCalled (driver : string) (client : Value)
| DisconnectCalled (driver : string) (client : Value)
| ConsoleError (message : string) (error : Exn).

Section WithWorld.

(** Whatever the drivers act on: the database servers, the ORM modules. *)
Context {World : Type}.

Definition Callback : Type := Value -> World -> (Exn + Value) * World.

(** contracts/DatabaseDriver.interface.ts; clients are [any]. *)
Record DatabaseDriver : Type := mkDriver {
  driver_createClient :
    ConnectionConfig -> string -> World -> (Exn + Value) * World;
  driver_transaction : Value -> Callback -> World -> (Exn + Value) * World;
  driver_disconnect : Value -> World -> (Exn + unit) * World
}.

Record DatabaseManager : Type := mkManager {
  defaultConnection : string;
  connections : gmap string ConnectionConfig;
  clients : gmap string Value;
  connectedClients : gset string;
  drivers : gmap string DatabaseDriver
}.

(** An object at work: its fields, the world and the calls made so far. *)
Record Run (T : Type) : Type := mkRun {
  self : T;
  world : World;
  log : list Event
}.
Arguments mkRun {T}.
Arguments self {T}.
Arguments world {T}.
Arguments log {T}.

(** Code that may throw and may change the object and the world. *)
Definition M (T A : Type) : Type := Run T -> (Exn + A) * Run T.

Definition ret {T A : Type} (a : A) : M T A := fun r => (inr a, r).

Definition throw {T A : Type} (e : Exn) : M T A := fun r => (inl e, r).

Definition bind {T A B : Type} (m : M T A) (k : A -> M T B) : M T B :=
  fun r =>
    match m r with
    | (inl e, r') => (inl e, r')
    | (inr a, r') => k a r'
    end.

(** [try { m } catch (error) { h(error) }] *)
Definition try_catch {T A : Type} (m : M T A) (h : Exn -> M T A) : M T A :=
  fun r =>
    match m r with
    | (inl e, r') => h e r'
    | (inr a, r') => (inr a, r')
    end.

Definition get {T : Type} : M T T := fun r => (inr (self r), r).

Definition modify {T : Type} (f : T -> T) : M T unit :=
  fun r => (inr tt, {| self := f (self r); world := world r; log := log r |}).

(** A call that leaves the manager: it is noted, then acts on the world. *)
Definition call {T A : Type} (ev : Event) (f : World -> (Exn + A) * World)
  : M T A :=
  fun r =>
    let '(res, w) := f (world r) in
    (res, {| self := self r; world := w; log := log r ++ [ev] |}).

Definition console_error {T : Type} (message : string) (error : Exn)
  : M T unit :=
  fun r => (inr tt, {| self := self r; world := world r;
                       log := log r ++ [ConsoleError message error] |}).

End WithWorld.

Arguments DatabaseDriver : clear implicits.
Arguments DatabaseManager : clear implicits.
Arguments Run : clear implicits.
Arguments mkRun {World T}.
Arguments self {World T}.
Arguments world {World T}.
Arguments log {World T}.
Arguments M : clear implicits.
Arguments Callback : clear implicits.

Declare Scope db_scope.
Delimit Scope db_scope with db.
Notation "x <- m ;; k" := (bind m (fun x => k))
  (at level 100, m at next level, right associativity) : db_scope.
Notation "m ;;; k" := (bind m (fun _ => k))
  (at level 100, right associativity) : db_scope.

Local Open Scope db_scope.

Section Drivers.

Context {World : Type}.

(** What the two built-in drivers lean on: the client managers of the ORM
    modules and the methods of the clients they hand out. *)
Record Externals : Type := mkExternals {
  getPrismaClient : World -> (Exn + Value) * World;
  getDrizzleClient : string -> World -> (Exn + Value) * World;
  (** [client[method](callback)] *)
  invoke_with : Value -> string -> Callback World -> World -> (Exn + Value) * World;
  (** [client[method]()] *)
  invoke : Value -> string -> World -> (Exn + unit) * World
}.

Variable ext : Externals.

(** [client?.[k]] *)
Definition optional_member (client : Value) (k : string) : Value :=
  match client with
  | Undefined | Null => Undefined
  | _ => default Undefined (get_property k client)
  end.

(** drivers/PrismaDriver.ts *)
Definition PrismaDriver : DatabaseDriver World :=
  {| driver_createClient := fun _config _name w => getPrismaClient ext w;
     driver_transaction := fun client callback w =>
       invoke_with ext client "$transaction" callback w;
     driver_disconnect := fun client w =>
       if truthy (optional_member client "$disconnect")
       then invoke ext client "$disconnect" w
       else (inr tt, w) |}.

Definition buildUrlFromConnection (config : ConnectionConfig) : option string :=
  match connection config with
  | None => None
  | Some conn =>
      let auth := if string_truthy (password conn)
                  then user conn ++ ":" ++ password conn
                  else user conn in
      Some ("postgresql://" ++ auth ++ "@" ++ host conn ++ ":"
              ++ pretty (port conn) ++ "/" ++ database conn)
  end.

(** drivers/DrizzleDriver.ts *)
Definition DrizzleDriver : DatabaseDriver World :=
  {| driver_createClient := fun config _name w =>
       let url := match url config with
                  | Some u => Some u
                  | None => buildUrlFromConnection config
                  end in
       match url with
       | Some u =>
           if string_truthy u then getDrizzleClient ext u w
           else (inl (JsError "Drizzle connection URL is required in config"), w)
       | None =>
           (inl (JsError "Drizzle connection URL is required in config"), w)
       end;
     driver_transaction := fun client callback w =>
       invoke_with ext client "transaction" callback w;
     driver_disconnect := fun client w =>
       if truthy (optional_member client "end")
       then invoke ext client "end" w
       else (inr tt, w) |}.

End Drivers.

Arguments Externals : clear implicits.

Section Manager.

Context {World : Type}.

Abbreviation Manager := (DatabaseManager World).
Abbreviation Op := (M World Manager).

Record DatabaseConfig : Type := mkDatabaseConfig {
  config_default : string;
  config_connections : list (string * ConnectionConfig)
}.

Definition set_defaultConnection (name : string) (m : Manager) : Manager :=
  {| defaultConnection := name;
     connections := connections m;
     clients := clients m;
     connectedClients := connectedClients m;
     drivers := drivers m |}.

Definition set_connections (c : gmap string ConnectionConfig) (m : Manager)
  : Manager :=
  {| defaultConnection := defaultConnection m;
     connections := c;
     clients := clients m;
     connectedClients := connectedClients m;
     drivers := drivers m |}.

Definition set_clients (c : gmap string Value) (m : Manager) : Manager :=
  {| defaultConnection := defaultConnection m;
     connections := connections m;
     clients := c;
     connectedClients := connectedClients m;
     drivers := drivers m |}.

Definition set_connectedClients (c : gset string) (m : Manager) : Manager :=
  {| defaultConnection := defaultConnection m;
     connections := connections m;
     clients := clients m;
     connectedClients := c;
     drivers := drivers m |}.

Definition set_drivers (d : gmap string (DatabaseDriver World)) (m : Manager)
  : Manager :=
  {| defaultConnection := defaultConnection m;
     connections := connections m;
     clients := clients m;
     connectedClients := connectedClients m;
     drivers := d |}.

(** [registerDriver(name, driver)] *)
Definition registerDriver (name : string) (d : DatabaseDriver World) : Op unit :=
  modify (fun m => set_drivers (<[name := d]> (drivers m)) m).

(** [new DatabaseManager(config)] *)
Definition new_manager (ext : Externals World) (config : DatabaseConfig)
  : Manager :=
  {| defaultConnection := config_default config;
     connections :=
       foldl (fun c kv => <[kv.1 := kv.2]> c) ∅ (config_connections config);
     clients := ∅;
     connectedClients := ∅;
     drivers := <["drizzle" := DrizzleDriver ext]>
                  (<["prisma" := PrismaDriver ext]> ∅) |}.

Definition getDefaultConnection : Op string :=
  m <- get ;; ret (defaultConnection m).

Definition setDefaultConnection (name : string) : Op unit :=
  m <- get ;;
  match connections m !! name with
  | None => throw (DatabaseConnectionNotConfiguredError name)
  | Some _ => modify (set_defaultConnection name)
  end.

(** [getDriver(name)]: the driver by name, or a throw. *)
Definition getDriver (name : string) : Op (DatabaseDriver World) :=
  m <- get ;;
  match drivers m !! name with
  | None => throw (UnsupportedDatabaseDriverError name)
  | Some d => ret d
  end.

Definition createClient (name : string) (config : ConnectionConfig)
  : Op Value :=
  d <- getDriver (driver config) ;;
  try_catch
    (call (CreateClientCalled (driver config) config name)
          (driver_createClient d config name))
    (fun error => throw (DatabaseClientCreationError (driver config) error)).

Definition getOrCreateClient (name : string) : Op Value :=
  m <- get ;;
  match clients m !! name with
  | Some client => ret client
  | None =>
      match connections m !! name with
      | None => throw (DatabaseConnectionNotConfiguredError name)
      | Some config =>
          client <- createClient name config ;;
          modify (fun m => set_clients (<[name := client]> (clients m)) m) ;;;
          modify (fun m =>
                    set_connectedClients ({[name]} ∪ connectedClients m) m) ;;;
          ret client
      end
  end.

(** [prisma(connection?)]; the result [Null] is [null]. *)
Definition prisma (connection : option string) : Op Value :=
  m <- get ;;
  let name := str_or connection (defaultConnection m) in
  match connections m !! name with
  | None => ret Null
  | Some config =>
      if negb (String.eqb (driver config) "prisma") then ret Null
      else getOrCreateClient name
  end.

Definition drizzle (connection : option string) : Op Value :=
  m <- get ;;
  let name := str_or connection (defaultConnection m) in
  match connections m !! name with
  | None => ret Null
  | Some config =>
      if negb (String.eqb (driver config) "drizzle") then ret Null
      else getOrCreateClient name
  end.

Definition client (connection : option string) : Op Value :=
  m <- get ;;
  let name := str_or connection (defaultConnection m) in
  getOrCreateClient name.

Definition transaction (callback : Callback World) (connection : option string)
  : Op Value :=
  m <- get ;;
  let name := str_or connection (defaultConnection m) in
  match connections m !! name with
  | None => throw (DatabaseConnectionNotConfiguredError name)
  | Some config =>
      client <- getOrCreateClient name ;;
      d <- getDriver (driver config) ;;
      call (TransactionCalled (driver config) client)
           (driver_transaction d client callback)
  end.

Definition disconnect (connection : option string) : Op unit :=
  m <- get ;;
  let name := str_or connection (defaultConnection m) in
  let client := default Undefined (clients m !! name) in
  if negb (truthy client) then throw DatabaseNotInitializedError
  else
    match connections m !! name with
    | None => throw (DatabaseConnectionNotConfiguredError name)
    | Some config =>
        try_catch
          (d <- getDriver (driver config) ;;
           call (DisconnectCalled (driver config) client)
                (driver_disconnect d client) ;;;
           modify (fun m =>
                     set_connectedClients (connectedClients m ∖ {[name]}) m))
          (fun error =>
             console_error ("Failed to disconnect from '" ++ name ++ "':") error)
    end.

(** [Promise.all] over operations that are settled one after the other:
    every one runs, and the first failure, if any, is what is thrown. *)
Fixpoint settle_all (ops : list (Op unit)) : Op unit :=
  match ops with
  | [] => ret tt
  | op :: ops' =>
      fun r =>
        match op r with
        | (inl e, r') => (inl e, (settle_all ops' r').2)
        | (inr _, r') => settle_all ops' r'
        end
  end.

Definition disconnectAll : Op unit :=
  m <- get ;;
  let names := (map_to_list (clients m)).*1 in
  settle_all (List.map (fun name => disconnect (Some name)) names) ;;;
  modify (set_clients ∅) ;;;
  modify (set_connectedClients ∅).

Definition isConnected (connection : option string) : Op bool :=
  m <- get ;;
  let name := str_or connection (defaultConnection m) in
  ret (bool_decide (name ∈ connectedClients m)).

Definition registerClient (name : string) (client : Value) (drv : string)
  : Op unit :=
  m <- get ;;
  match drivers m !! drv with
  | None => throw (UnsupportedDatabaseDriverError drv)
  | Some _ =>
      modify (fun m => set_clients (<[name := client]> (clients m)) m) ;;;
      modify (fun m =>
                set_connections
                  (<[name := {| driver := drv; url := None;
                                connection := None; pool := None |}]>
                     (connections m)) m) ;;;
      modify (fun m => set_connectedClients ({[name]} ∪ connectedClients m) m)
  end.

End Manager.

(** *** The [DB] facade (database/DB.ts) *)

Module DB.

Section Facade.

Context {World : Type}.

Variable ext : Externals World.

Record DBFacade : Type := mkFacade {
  manager : option (DatabaseManager World);
  config : option DatabaseConfig
}.

Abbreviation FacadeOp := (M World DBFacade).

Definition init (cfg : DatabaseConfig) : FacadeOp unit :=
  modify (fun _ => {| manager := Some (new_manager ext cfg);
                      config := Some cfg |}).

(** [this.getManager().op(...)]: the operation runs on the facade's manager,
    which keeps what the operation did to it. *)
Definition on_manager {A : Type} (op : M World (DatabaseManager World) A)
  : FacadeOp A :=
  fun r =>
    match manager (self r) with
    | None => (inl DatabaseNotInitializedError, r)
    | Some m =>
        let '(res, r') := op {| self := m; world := world r; log := log r |} in
        (res, {| self := {| manager := Some (self r');
                            config := config (self r) |};
                 world := world r';
                 log := log r' |})
    end.

Definition register (name : string) (client : Value) (drv : string)
  : FacadeOp unit :=
  f <- get ;;
  match manager f with
  | None => init {| config_default := name; config_connections := [] |}
  | Some _ => ret tt
  end ;;;
  on_manager (registerClient name client drv).

Definition prisma (connection : option string) : FacadeOp Value :=
  client <- on_manager (prisma connection) ;;
  if negb (truthy client) then
    dflt <- on_manager getDefaultConnection ;;
    let name := str_or connection dflt in
    throw (JsError ("Prisma client not available for connection '" ++ name
                      ++ "'. Make sure the connection is configured with driver: 'prisma'."))
  else ret client.

Definition drizzle (connection : option string) : FacadeOp Value :=
  client <- on_manager (drizzle connection) ;;
  if negb (truthy client) then
    dflt <- on_manager getDefaultConnection ;;
    let name := str_or connection dflt in
    throw (JsError ("Drizzle client not available for connection '" ++ name
                      ++ "'. Make sure the connection is configured with driver: 'drizzle'."))
  else ret client.

Definition client (connection : option string) : FacadeOp Value :=
  on_manager (client connection).

Definition reset : FacadeOp unit :=
  modify (fun _ => {| manager := None; config := None |}).

End Facade.

Arguments DBFacade : clear implicits.

End DB.

End Database.

(** ** Database errors (database/DatabaseErrors.ts) *)

Module DatabaseErrors.
Import Js FrameworkError.

Definition DATABASE_ERROR_TYPE_BASE : string := "urn:frourio:errors:database".

(** The five classes, with the arguments of their constructors; [cause] is
    [undefined] when it is left out. *)
Inductive DatabaseError : Type :=
| NotInitialized
| ConnectionNotConfigured (connection : string)
| UnsupportedDriver (driver : string)
| ClientUnavailable (connection driver : string)
| ClientCreation (driver : string) (cause : Value).

Definition class_name (e : DatabaseError) : string :=
  match e with
  | NotInitialized => "DatabaseNotInitializedError"
  | ConnectionNotConfigured _ => "DatabaseConnectionNotConfiguredError"
  | UnsupportedDriver _ => "UnsupportedDatabaseDriverError"
  | ClientUnavailable _ _ => "DatabaseClientUnavailableError"
  | ClientCreation _ _ => "DatabaseClientCreationError"
  end.

(** What each constructor hands to [super]. *)
Definition super_args (e : DatabaseError) : Args :=
  match e with
  | NotInitialized =>
      {| arg_message :=
           "Database manager not initialized. Call DB.init(config) first or use the DatabaseServiceProvider.";
         arg_code := DATABASE_NOT_INITIALIZED;
         arg_details := None;
         arg_instance := None;
         arg_typeUri := Some (DATABASE_ERROR_TYPE_BASE ++ "/not-initialized") |}
  | ConnectionNotConfigured connection =>
      {| arg_message := "Connection '" ++ connection ++ "' is not configured";
         arg_code := DATABASE_CONNECTION_NOT_CONFIGURED;
         arg_details := Some [("connection", Str connection)];
         arg_instance := None;
         arg_typeUri :=
           Some (DATABASE_ERROR_TYPE_BASE ++ "/connection-not-configured") |}
  | UnsupportedDriver driver =>
      {| arg_message := "Unsupported database driver: '" ++ driver ++ "'";
         arg_code := DATABASE_UNSUPPORTED_DRIVER;
         arg_details := Some [("driver", Str driver)];
         arg_instance := None;
         arg_typeUri := Some (DATABASE_ERROR_TYPE_BASE ++ "/unsupported-driver") |}
  | ClientUnavailable connection driver =>
      {| arg_message :=
           "Database client not available for connection '" ++ connection
             ++ "' using driver '" ++ driver ++ "'";
         arg_code := DATABASE_CLIENT_UNAVAILABLE;
         arg_details :=
           Some [("connection", Str connection); ("driver", Str driver)];
         arg_instance := None;
         arg_typeUri := Some (DATABASE_ERROR_TYPE_BASE ++ "/client-unavailable") |}
  | ClientCreation driver cause =>
      {| arg_message :=
           "Failed to create database client for driver '" ++ driver ++ "'";
         arg_code := DATABASE_CLIENT_CREATION_FAILED;
         arg_details := Some [("driver", Str driver); ("cause", cause)];
         arg_instance := None;
         arg_typeUri :=
           Some (DATABASE_ERROR_TYPE_BASE ++ "/client-creation-failed") |}
  end.

(** [new C(...)] for the class [C] of [e], at the moment [now]. *)
Definition new_error (e : DatabaseError) (now : Date)
  : AbstractFrourioFrameworkError :=
  construct (class_name e) (super_args e) now.

End DatabaseErrors.

(** ** The error handler of the HTTP kernel (foundation/HttpKernel.ts) *)

Module HttpKernel.
Import Js FrameworkError ApiResponse.

(** What the handler reads of the request. *)
Record Request : Type := mkRequest {
  request_id : Value;
  request_body : Value;
  request_params : Value;
  request_query : Value
}.

(** What the handler does with the reply: it sets the status and the
    content type and sends the body, or it sends the error as it is and
    leaves the answer to Fastify. *)
Inductive Reply : Type :=
| Problem (status : Z) (content_type : string) (payload : ProblemDetails)
| Forwarded (error : Thrown).

Section ErrorHandler.

(** The media type of Problem Details, a constant of [http/type/nfc9457]. *)
Variable PROBLEM_DETAILS_MEDIA_TYPE : string.

(** The function given to [app.setErrorHandler]; the first component is
    what goes to [console.error]. *)
Definition errorHandler (error : Thrown) (request : Request)
  : list (AbstractFrourioFrameworkError * Request) * Reply :=
  match error with
  | ThrownFramework e =>
      ([(e, request)],
       Problem (httpStatusCode e) PROBLEM_DETAILS_MEDIA_TYPE
         (toProblemDetails e))
  | _ => ([], Forwarded error)
  end.

End ErrorHandler.

End HttpKernel.

(** ** The helpers of [ApiResponse] with a status of their own *)

Module ApiHelpers.
Import Js FrameworkError ApiResponse.

(** [returnSuccess] *)
Definition returnSuccess {T : Type} (val : T) : Z * T := (200, val).

(** The six helpers are one text with two constants. *)
Definition fixed_response (code : Z) (title : string) (detail : string)
  (extensions : option (list (string * Value))) : ErrorResponse :=
  let problemDetails :=
    createProblemDetails
      {| opt_type := None;
         opt_title := title;
         opt_status := code;
         opt_detail := detail;
         opt_instance := None;
         opt_extensions := extensions |} in
  {| status := Num code; body := problemDetails |}.

Definition returnInternalServerError :=
  fixed_response 500 "Internal Server Error".





End ApiHelpers.

(** ** The Drizzle client of the module (database/DrizzleClientManager.ts) *)

Module DrizzleClientManager.
Import Js Database.

Section Client.

(** What lies outside the module: the servers, and the environment. *)
Context {W : Type}.

(** The libraries the module calls, and the variable it reads. *)
Record Libraries : Type := mkLibraries {
  (** [postgres(dbUrl)] *)
  postgres : string -> W -> (Exn + Value) * W;
  (** [drizzle(connection, { schema })] *)
  drizzle_orm : Value -> W -> (Exn + Value) * W;
  (** [connection.end()] *)
  connection_end : Value -> W -> (Exn + unit) * W;
  (** [process.env.DATABASE_URL] *)
  DATABASE_URL : W -> option string
}.

(** The two variables of the module, [null] at first. *)
Record Variables : Type := mkVariables {
  drizzleClient : Value;
  postgresConnection : Value
}.

Definition initial : Variables :=
  {| drizzleClient := Null; postgresConnection := Null |}.

Variable lib : Libraries.

Definition getDrizzleClient (connectionString : option string)
  (s : Variables * W) : (Exn + Value) * (Variables * W) :=
  let '(vars, w) := s in
  if truthy (drizzleClient vars) then (inr (drizzleClient vars), s)
  else
    let dbUrl :=
      match connectionString with
      | Some u => if string_truthy u then Some u else DATABASE_URL lib w
      | None => DATABASE_URL lib w
      end in
    match dbUrl with
    | None => (inl (JsError "DATABASE_URL is not defined"), s)
    | Some u =>
        if negb (string_truthy u)
        then (inl (JsError "DATABASE_URL is not defined"), s)
        else
          match postgres lib u w with
          | (inl e, w1) => (inl e, (vars, w1))
          | (inr conn, w1) =>
              let vars1 := {| drizzleClient := drizzleClient vars;
                              postgresConnection := conn |} in
              match drizzle_orm lib conn w1 with
              | (inl e, w2) => (inl e, (vars1, w2))
              | (inr c, w2) =>
                  (inr c, ({| drizzleClient := c;
                              postgresConnection := conn |}, w2))
              end
          end
    end.

Definition disconnectDrizzleClient (s : Variables * W)
  : (Exn + unit) * (Variables * W) :=
  let '(vars, w) := s in
  if truthy (postgresConnection vars) then
    match connection_end lib (postgresConnection vars) w with
    | (inl e, w1) => (inl e, (vars, w1))
    | (inr _, w1) => (inr tt, (initial, w1))
    end
  else (inr tt, s).

Definition resetDrizzleConnection (s : Variables * W) : Variables * W :=
  (initial, s.2).

(** The externals of the built-in drivers, with the Drizzle client taken
    from this module. *)
Definition with_module
  (getPrismaClient : Variables * W -> (Exn + Value) * (Variables * W))
  (invoke_with : Value -> string -> Callback (Variables * W) ->
                 Variables * W -> (Exn + Value) * (Variables * W))
  (invoke : Value -> string -> Variables * W -> (Exn + unit) * (Variables * W))
  : Externals (Variables * W) :=
  {| Database.getPrismaClient := getPrismaClient;
     Database.getDrizzleClient := fun u s => getDrizzleClient (Some u) s;
     Database.invoke_with := invoke_with;
     Database.invoke := invoke |}.

End Client.

Arguments Libraries : clear implicits.

End DrizzleClientManager.

(** ** The response builder (http/ApiResponseBuilder.ts) *)

Module ApiResponseBuilder.
Import Js FrameworkError ApiResponse ApiHelpers.

Record Builder : Type := mkBuilder {
  validatedData : Value;
  validationError : option ErrorResponse
}.

(** [ApiResponseBuilder.create()] *)
Definition create : Builder :=
  {| validatedData := Null; validationError := None |}.

Section Builder.

Context {Schema : Type}.

(** [Validator.validate(data, schema)], left open here: the response of a
    failed validation, or the data of one that passed. *)
Variable validate : Value -> Schema -> ErrorResponse + Value.

(** The prototype of an object literal. *)
Variable object_prototype : Value.

Definition withZodValidation (this : Builder) (data : Value) (schema : Schema)
  : Builder :=
  match validate data schema with
  | inl response => {| validatedData := Null; validationError := Some response |}
  | inr d => {| validatedData := d; validationError := None |}
  end.

(** What [handle] returns is a response of the builder's, on the left, or
    what the handler returned, on the right. *)
Definition handle {R : Type} (this : Builder) (handler : Value -> R)
  : ErrorResponse + R :=
  match validationError this with
  | Some response => inl response
  | None =>
      match validatedData this with
      | Null =>
          inl (returnInternalServerError "No validated data available" None)
      | d => inr (handler d)
      end
  end.

Definition then_ {R : Type} (this : Builder) (handler : Value -> R)
  : ErrorResponse + R :=
  handle this handler.

(** [ApiResponse.success(result)] as the object it is. *)
Definition success (result : Value) : Value :=
  Object [("status", Num (returnSuccess result).1);
          ("body", (returnSuccess result).2)] object_prototype.

(** [result && typeof result === 'object' && 'status' in result &&
    'body' in result] *)
Definition is_response (result : Value) : bool :=
  truthy result && is_object_tag (typeof result)
  && has_property "status" result && has_property "body" result.

Definition executeWithSuccess (this : Builder) (handler : Value -> Value)
  : ErrorResponse + Value :=
  handle this (fun data =>
    let result := handler data in
    if is_response result then result else success result).

End Builder.

End ApiResponseBuilder.

(** * Properties *)

(** ** The error taxonomy *)

Module ErrorFacts.
Import Js FrameworkError.

(** The members every conversion writes itself. *)
Definition own_members : list string :=
  ["type"; "title"; "status"; "detail"; "instance"; "code"; "timestamp"].

(** No entry of the details payload goes by one of the given names. *)
Definition details_avoid (names : list string)
  (details : option (list (string * Value))) : Prop :=
  match details with
  | None => True
  | Some d => Forall (fun k => assoc k d = None) names
  end.

Lemma assign_entries_other d (pd : ProblemDetails) k :
  assoc k d = None -> assign_entries d pd !! k = pd !! k.
Proof.
  revert pd. induction d as [|[k' v] d IH]; intros pd Hk; [done|].
  simpl in Hk. destruct (String.eqb k k') eqn:E; [done|].
  apply String.eqb_neq in E.
  unfold assign_entries in *. simpl. rewrite IH by done.
  by rewrite lookup_insert_ne.
Qed.

Lemma status_table_range c : 400 <= ErrorCodeToHttpStatus c < 600.
Proof. destruct c; simpl; lia. Qed.

(** C7: every code of [ErrorCode] has a status of at least 400 in
    [ErrorCodeToHttpStatus], so of every framework error exactly one of
    [isClientError()] (status from 400 to 499) and [isServerError()]
    (status 500 or more) is true. *)
Theorem client_xor_server_error :
  (forall c, 400 <= ErrorCodeToHttpStatus c) /\
  (forall cls args now,
     let e := construct cls args now in
     (isClientError e = true <-> 400 <= httpStatusCode e <= 499) /\
     (isServerError e = true <-> 500 <= httpStatusCode e) /\
     xorb (isClientError e) (isServerError e) = true).
Proof.
  split; [intros c; apply status_table_range|].
  intros cls args now e.
  pose proof (status_table_range (arg_code args)) as Hr.
  unfold isClientError, isServerError. subst e. simpl.
  destruct (Z.leb_spec 400 (ErrorCodeToHttpStatus (arg_code args)));
    destruct (Z.ltb_spec (ErrorCodeToHttpStatus (arg_code args)) 500);
    destruct (Z.leb_spec 500 (ErrorCodeToHttpStatus (arg_code args)));
    simpl; repeat split; intros; try done; lia.
Qed.

(** What the conversion is to give for an error: the four standard members,
    the instance when there is one, the code and the timestamp. *)
Definition converts_uniformly (e : AbstractFrourioFrameworkError)
  (pd : ProblemDetails) : Prop :=
  pd !! "type" = Some (Str (str_or (typeUri e) DEFAULT_PROBLEM_TYPE)) /\
  pd !! "title" = Some (Str (code_value (code e))) /\
  pd !! "status" = Some (Num (ErrorCodeToHttpStatus (code e))) /\
  pd !! "detail" = Some (Str (message e)) /\
  pd !! "code" = Some (Str (code_value (code e))) /\
  pd !! "timestamp" = Some (Str (toISOString (timestamp e))) /\
  pd !! "instance" =
    match instance e with
    | Some i => if string_truthy i then Some (Str i) else None
    | None => None
    end.

(** Each key ends up with the last value the entries give it. *)
Lemma assign_entries_lookup d (pd : ProblemDetails) k :
  assign_entries d pd !! k =
    match assoc k (reverse d) with
    | Some v => Some v
    | None => pd !! k
    end.
Proof.
  induction d as [|[k' v] d IH] using rev_ind; [done|].
  rewrite reverse_app. simpl. unfold assign_entries in *.
  rewrite foldl_app. simpl.
  destruct (String.eqb k k') eqn:E.
  - apply String.eqb_eq in E as ->. apply lookup_insert_eq.
  - apply String.eqb_neq in E. rewrite lookup_insert_ne by done. apply IH.
Qed.









End ErrorFacts.

(** ** The response facade *)

Module ApiFacts.
Import Js FrameworkError ApiResponse ErrorFacts.

(** The error came out of the constructor of a framework error class. *)
Definition constructed (e : AbstractFrourioFrameworkError) : Prop :=
  exists cls args now, e = construct cls args now.

(** The status the facade is to answer an error with. *)
Definition expected_status (error : Thrown) : Z :=
  match error with
  | ThrownFramework e => ErrorCodeToHttpStatus (code e)
  | ThrownError _ _ | ThrownOther _ => 500
  end.

(** A response as the facade is to build it: a body with the four members
    of RFC 9457, answered with the status the body names, which is the one
    expected for the error. *)
Definition problem_response (error : Thrown) (res : ErrorResponse) : Prop :=
  is_Some (body res !! "type") /\
  is_Some (body res !! "title") /\
  is_Some (body res !! "status") /\
  is_Some (body res !! "detail") /\
  body res !! "status" = Some (status res) /\
  status res = Num (expected_status error).

(** The errors whose details leave the status alone. *)
Definition keeps_status (error : Thrown) : Prop :=
  match error with
  | ThrownFramework e => constructed e /\ details_avoid ["status"] (details e)
  | ThrownError _ _ | ThrownOther _ => True
  end.

Lemma toProblemDetails_standard_member e k :
  k ∈ ["type"; "title"; "status"; "detail"] ->
  is_Some (toProblemDetails e !! k).
Proof.
  intros Hk. unfold toProblemDetails.
  assert (Hbase : forall pd : ProblemDetails,
             is_Some (pd !! k) ->
             is_Some (match details e with
                      | Some d => assign_entries d pd
                      | None => pd
                      end !! k)).
  { intros pd Hpd. destruct (details e) as [d|]; [|done].
    rewrite assign_entries_lookup. by destruct (assoc k (reverse d)). }
  apply Hbase.
  repeat (apply elem_of_cons in Hk as [->|Hk]);
    [ | | | | by apply elem_of_nil in Hk];
    (destruct (instance e) as [i|]; [destruct (string_truthy i)|]);
    by simplify_map_eq.
Qed.

Lemma toProblemDetails_status e :
  details_avoid ["status"] (details e) ->
  toProblemDetails e !! "status" = Some (Num (httpStatusCode e)).
Proof.
  intros Havoid. unfold toProblemDetails.
  assert (Hbase : forall pd : ProblemDetails,
             match details e with
             | Some d => assign_entries d pd
             | None => pd
             end !! "status" = pd !! "status").
  { intros pd. destruct (details e) as [d|]; [|done].
    simpl in Havoid. apply Forall_cons in Havoid as [Hs _].
    by apply assign_entries_other. }
  rewrite Hbase.
  destruct (instance e) as [i|]; [destruct (string_truthy i)|];
    by simplify_map_eq.
Qed.

Lemma returnProblemDetails_response error d :
  keeps_status error -> problem_response error (returnProblemDetails error d).
Proof.
  intros Hkeep. unfold problem_response, returnProblemDetails. simpl.
  destruct error as [e|nm msg|text]; simpl.
  - destruct Hkeep as [(cls & args & now & ->) Havoid].
    rewrite (toProblemDetails_status _ Havoid). simpl.
    repeat split; try done;
      apply toProblemDetails_standard_member; set_solver.
  - unfold createProblemDetails, assign_entries. simpl.
    repeat split; by simplify_map_eq.
  - unfold createProblemDetails, assign_entries. simpl.
    repeat split; by simplify_map_eq.
Qed.




End ApiFacts.

(** ** Configuration helpers *)

Module ConfigFacts.
Import Js Config.






(** The prototype of the objects below, without members of its own. *)
Definition bare_prototype : Value := Object [] Null.






(** *** [config] and [hasConfig] *)

Example split_dots :
  split "." "database.pool.max" = ["database"; "pool"; "max"].
Proof. reflexivity. Qed.

Example split_empty : split "." "" = [""].
Proof. reflexivity. Qed.

Example split_trailing : split "." "app.name." = ["app"; "name"; ""].
Proof. reflexivity. Qed.

Lemma descend_Some v k x :
  descend v k = Some x <-> is_object v /\ get_property k v = Some x.
Proof.
  unfold descend, has_property. split.
  - intros H.
    destruct (truthy v && is_object_tag (typeof v)) eqn:Hguard;
      simpl in H; [|done].
    destruct (get_property k v) as [y|] eqn:E; simpl in H; [|done].
    injection H as <-. split; [|done].
    destruct v as [| |[b|n|s]|props proto|props proto|p props proto];
      simpl in Hguard; rewrite ?andb_false_r in Hguard;
      try discriminate; constructor.
  - intros [Hobj Hget]. destruct Hobj; simpl in *; by rewrite Hget.
Qed.

Lemma walk_reaches keys v r : walk keys v = Some r <-> reaches v keys r.
Proof.
  revert v. induction keys as [|k keys IH]; intros v; simpl.
  - split; [intros [= ->]; constructor | by inversion 1].
  - destruct (descend v k) as [x|] eqn:E.
    + apply descend_Some in E as [Hobj Hget]. rewrite IH. split.
      * intros Hr. by econstructor.
      * inversion 1; subst. congruence.
    + split; [done|]. inversion 1; subst.
      assert (descend v k = Some x) as Hd by by apply descend_Some.
      congruence.
Qed.

Lemma reaches_functional v keys r1 r2 :
  reaches v keys r1 -> reaches v keys r2 -> r1 = r2.
Proof.
  intros H1 H2. apply walk_reaches in H1, H2. congruence.
Qed.

(** C10: [config(key, defaultValue)] splits the key on dots and walks the
    config object segment by segment; it returns the value the walk reaches,
    be it [undefined], and the default as soon as a segment is missing or
    the value at hand is no object. [hasConfig(key)] is true exactly when the
    walk goes through. (When the container cannot resolve [config], [config]
    throws and [hasConfig] is false.) *)
Theorem config_walks_by_segments make key defaultValue :
  match make "config" with
  | inr configs =>
      (forall r, reaches configs (split "." key) r ->
                 config make key defaultValue = inr r) /\
      ((forall r, ~ reaches configs (split "." key) r) ->
       config make key defaultValue = inr defaultValue) /\
      (hasConfig make key = true <->
       exists r, reaches configs (split "." key) r)
  | inl e =>
      config make key defaultValue = inl e /\ hasConfig make key = false
  end.
Proof.
  unfold config, hasConfig.
  destruct (make "config") as [e|configs]; [done|].
  destruct (walk (split "." key) configs) as [v|] eqn:E.
  - apply walk_reaches in E. repeat split.
    + intros r Hr. f_equal. eapply reaches_functional; eauto.
    + intros Hno. by destruct (Hno v).
    + by exists v.
  - assert (Hno : forall r, ~ reaches configs (split "." key) r).
    { intros r Hr. apply walk_reaches in Hr. congruence. }
    repeat split; try done.
    + intros r Hr. by destruct (Hno r).
    + intros [r Hr]. by destruct (Hno r).
Qed.

(** The configuration of config/config.test.ts, with one member more whose
    value is [undefined]. *)
Definition mockConfig : Value :=
  Object
    [("app", Object [("name", Str "Test App");
                     ("env", Str "test");
                     ("debug", Bool true);
                     ("nested", Object [("value", Str "deep value")]
                                  bare_prototype);
                     ("unset", Undefined)] bare_prototype);
     ("database",
       Object [("connections",
                 Object [("postgresql",
                           Object [("url", Str "postgresql://test")]
                             bare_prototype)] bare_prototype)]
         bare_prototype);
     ("custom", Object [("feature", Object [("enabled", Bool true);
                                            ("limit", Num 100)]
                                      bare_prototype)] bare_prototype)]
    bare_prototype.

Definition mockMake (key : string) : Exn + Value :=
  if String.eqb key "config" then inr mockConfig
  else inl (Raised (Str "Service not found")).

Example config_nested :
  config mockMake "database.connections.postgresql.url" Undefined
    = inr (Str "postgresql://test").
Proof. reflexivity. Qed.

Example config_missing :
  config mockMake "non.existent.key" (Str "default") = inr (Str "default").
Proof. reflexivity. Qed.

Example config_empty_key :
  config mockMake "" (Str "default") = inr (Str "default").
Proof. reflexivity. Qed.

Example config_trailing_dot :
  config mockMake "app.name." (Str "default") = inr (Str "default").
Proof. reflexivity. Qed.

Example config_stored_undefined :
  config mockMake "app.unset" (Str "default") = inr Undefined /\
  hasConfig mockMake "app.unset" = true.
Proof. split; reflexivity. Qed.

Example hasConfig_tests :
  hasConfig mockMake "app.name" = true /\
  hasConfig mockMake "custom.feature.enabled" = true /\
  hasConfig mockMake "non.existent" = false /\
  hasConfig mockMake "app.non.existent" = false.
Proof. repeat split; reflexivity. Qed.

End ConfigFacts.

(** ** The service container *)

Module ContainerFacts.
Import Container.

Section Laziness.

Context {World Service : Type}.

Implicit Types (r : Run World Service) (f : World -> Service * World).

Lemma make_bindings k r : bindings (app (make k r).2) = bindings (app r).
Proof.
  unfold make, build.
  destruct (bindings (app r) !! k) as [b|]; [|done].
  destruct (shared b); [destruct (instances (app r) !! k)|];
    [done| |]; by destruct (factory b (world r)).
Qed.

Lemma make_keeps_instance k r key s :
  instances (app r) !! key = Some s ->
  instances (app (make k r).2) !! key = Some s.
Proof.
  intros Hs. unfold make, build.
  destruct (bindings (app r) !! k) as [b|]; [|done].
  destruct (shared b).
  - destruct (instances (app r) !! k) eqn:Hk; [done|].
    destruct (factory b (world r)). simpl.
    rewrite lookup_insert_ne; [done|]. intros ->. congruence.
  - by destruct (factory b (world r)).
Qed.

Lemma make_invoked k r x :
  x ∈ invoked (make k r).2 -> x ∈ invoked r \/ x = k.
Proof.
  unfold make, build.
  destruct (bindings (app r) !! k) as [b|]; [|by left].
  destruct (shared b); [destruct (instances (app r) !! k)|];
    [by left| |]; destruct (factory b (world r)); simpl;
    rewrite elem_of_app, list_elem_of_singleton; tauto.
Qed.

Lemma make_all_bindings keys r :
  bindings (app (make_all keys r)) = bindings (app r).
Proof.
  revert r. induction keys as [|k keys IH]; intros r; simpl; [done|].
  by rewrite IH, make_bindings.
Qed.

Lemma make_all_keeps_instance keys r key s :
  instances (app r) !! key = Some s ->
  instances (app (make_all keys r)) !! key = Some s.
Proof.
  revert r. induction keys as [|k keys IH]; intros r Hs; simpl; [done|].
  by apply IH, make_keeps_instance.
Qed.

Lemma make_all_invoked keys r x :
  x ∈ invoked (make_all keys r) -> x ∈ invoked r \/ x ∈ keys.
Proof.
  revert r. induction keys as [|k keys IH]; intros r; simpl; [by left|].
  intros [H|H]%IH; [|right; set_solver].
  apply make_invoked in H as [?| ->]; [by left|right; set_solver].
Qed.

(** C5: the container maps string keys to services that are built late.
    Neither [bind] nor [singleton] runs the factory it is given; a factory
    runs when its key is resolved with [make], and only then; the instance
    that the first [make] of a singleton builds is what every later [make] of
    the key returns, the factory staying at rest. *)
Theorem container_builds_lazily key f r :
  instances (app r) !! key = None ->
  (invoked (bind key f r) = invoked r /\ world (bind key f r) = world r) /\
  (invoked (singleton key f r) = invoked r /\
   world (singleton key f r) = world r) /\
  (forall keys x,
     x ∈ invoked (make_all keys r) -> x ∈ invoked r \/ x ∈ keys) /\
  let first := make key (singleton key f r) in
  first.1 = Some (f (world r)).1 /\
  world first.2 = (f (world r)).2 /\
  invoked first.2 = (invoked r ++ [key])%list /\
  forall keys,
    let later := make_all keys first.2 in
    make key later = (Some (f (world r)).1, later).
Proof.
  intros Hfresh. repeat split; try done.
  - intros keys x. apply make_all_invoked.
  - unfold make, singleton, register, build. simpl.
    rewrite lookup_insert_eq. simpl. rewrite Hfresh.
    by destruct (f (world r)).
  - unfold make, singleton, register, build. simpl.
    rewrite lookup_insert_eq. simpl. rewrite Hfresh.
    by destruct (f (world r)).
  - unfold make, singleton, register, build. simpl.
    rewrite lookup_insert_eq. simpl. rewrite Hfresh.
    by destruct (f (world r)).
  - intros keys later.
    assert (Hb : bindings (app later) !! key
                 = Some {| factory := f; shared := true |}).
    { subst later. rewrite make_all_bindings, make_bindings. simpl.
      apply lookup_insert_eq. }
    assert (Hi : instances (app later) !! key = Some (f (world r)).1).
    { subst later. apply make_all_keeps_instance.
      unfold make, singleton, register, build. simpl.
      rewrite lookup_insert_eq. simpl. rewrite Hfresh.
      destruct (f (world r)). simpl. apply lookup_insert_eq. }
    unfold make at 1. by rewrite Hb, Hi.
Qed.

End Laziness.

(** A counter for a world: each service built takes the next number. *)
Definition next_number (w : nat) : nat * nat := (w, S w).

Definition empty_container : Run nat nat :=
  {| app := {| bindings := ∅; instances := ∅ |}; world := 0%nat; invoked := [] |}.

Lemma container_builds_lazily_witness :
  instances (app empty_container) !! "config" = None /\
  let first := make "config" (singleton "config" next_number empty_container) in
  first.1 = Some 0%nat /\
  forall keys,
    let later := make_all keys first.2 in
    make "config" later = (Some 0%nat, later).
Proof.
  assert (H : instances (app empty_container) !! "config" = None)
    by reflexivity.
  split; [exact H|].
  pose proof (container_builds_lazily "config" next_number empty_container H)
    as (_ & _ & _ & Hfirst & _ & _ & Hlater).
  split; [exact Hfirst | exact Hlater].
Defined.

End ContainerFacts.

(** ** The database manager *)

Module DatabaseFacts.
Import Js Database.

Section ManagerFacts.

Context {World : Type}.

Implicit Types (r : Run World (DatabaseManager World))
  (d : DatabaseDriver World) (cfg : ConnectionConfig).

(** The run after a call that left the manager. *)
Definition after_call r (ev : Event) (w : World)
  : Run World (DatabaseManager World) :=
  {| self := self r; world := w; log := (log r ++ [ev])%list |}.

(** The run after a client was stored for a connection. *)
Definition after_store r (name : string) (c : Value)
  : Run World (DatabaseManager World) :=
  {| self := set_connectedClients ({[name]} ∪ connectedClients (self r))
               (set_clients (<[name := c]> (clients (self r))) (self r));
     world := world r;
     log := log r |}.

Lemma getDriver_eq name r :
  getDriver name r =
    match drivers (self r) !! name with
    | Some d => (inr d, r)
    | None => (inl (UnsupportedDatabaseDriverError name), r)
    end.
Proof.
  unfold getDriver, bind, get. simpl.
  by destruct (drivers (self r) !! name).
Qed.

Lemma createClient_eq name cfg r :
  createClient name cfg r =
    match drivers (self r) !! driver cfg with
    | None => (inl (UnsupportedDatabaseDriverError (driver cfg)), r)
    | Some d =>
        let ev := CreateClientCalled (driver cfg) cfg name in
        match driver_createClient d cfg name (world r) with
        | (inr c, w) => (inr c, after_call r ev w)
        | (inl e, w) =>
            (inl (DatabaseClientCreationError (driver cfg) e),
             after_call r ev w)
        end
    end.
Proof.
  unfold createClient, bind. rewrite getDriver_eq.
  destruct (drivers (self r) !! driver cfg) as [d|]; [|done].
  unfold try_catch, call, throw, after_call.
  by destruct (driver_createClient d cfg name (world r)) as [[e|c] w].
Qed.

Lemma getOrCreateClient_eq name r :
  getOrCreateClient name r =
    match clients (self r) !! name with
    | Some c => (inr c, r)
    | None =>
        match connections (self r) !! name with
        | None => (inl (DatabaseConnectionNotConfiguredError name), r)
        | Some cfg =>
            match createClient name cfg r with
            | (inr c, r') => (inr c, after_store r' name c)
            | (inl e, r') => (inl e, r')
            end
        end
    end.
Proof.
  unfold getOrCreateClient, bind at 1, get. simpl.
  destruct (clients (self r) !! name) as [c|]; [done|].
  destruct (connections (self r) !! name) as [cfg|]; [|done].
  unfold bind at 1.
  by destruct (createClient name cfg r) as [[e|c] r'].
Qed.

(** A stored client is returned as it is: the run does not move, so no call
    leaves the manager. *)
Lemma getOrCreateClient_stored name r c :
  clients (self r) !! name = Some c -> getOrCreateClient name r = (inr c, r).
Proof. intros H. by rewrite getOrCreateClient_eq, H. Qed.

Lemma prisma_eq connection r :
  prisma connection r =
    let name := str_or connection (defaultConnection (self r)) in
    match connections (self r) !! name with
    | None => (inr Null, r)
    | Some cfg =>
        if String.eqb (driver cfg) "prisma" then getOrCreateClient name r
        else (inr Null, r)
    end.
Proof.
  unfold prisma, bind, get. simpl.
  destruct (connections (self r) !! _) as [cfg|]; [|done].
  by destruct (String.eqb (driver cfg) "prisma").
Qed.

Lemma drizzle_eq connection r :
  drizzle connection r =
    let name := str_or connection (defaultConnection (self r)) in
    match connections (self r) !! name with
    | None => (inr Null, r)
    | Some cfg =>
        if String.eqb (driver cfg) "drizzle" then getOrCreateClient name r
        else (inr Null, r)
    end.
Proof.
  unfold drizzle, bind, get. simpl.
  destruct (connections (self r) !! _) as [cfg|]; [|done].
  by destruct (String.eqb (driver cfg) "drizzle").
Qed.

Lemma client_eq connection r :
  client connection r =
    getOrCreateClient (str_or connection (defaultConnection (self r))) r.
Proof. done. Qed.

Lemma str_or_default (dflt : string) : str_or (Some dflt) dflt = dflt.
Proof. simpl. by destruct (String.eqb dflt "") eqn:E. Qed.

(** The text [disconnect] hands to [console.error]. *)
Definition disconnect_failure (name : string) : string :=
  "Failed to disconnect from '" ++ name ++ "':".

Lemma createClient_self name cfg r : self (createClient name cfg r).2 = self r.
Proof.
  rewrite createClient_eq.
  destruct (drivers (self r) !! driver cfg) as [d|]; [|done]. simpl.
  by destruct (driver_createClient d cfg name (world r)) as [[e|c] w].
Qed.

Lemma getOrCreateClient_drivers name r :
  drivers (self (getOrCreateClient name r).2) = drivers (self r).
Proof.
  rewrite getOrCreateClient_eq.
  destruct (clients (self r) !! name); [done|].
  destruct (connections (self r) !! name) as [cfg|]; [|done].
  pose proof (createClient_self name cfg r) as Hself.
  destruct (createClient name cfg r) as [[e|c] r']; simpl in *;
    by rewrite Hself.
Qed.

Lemma getOrCreateClient_unsupported name r cfg :
  connections (self r) !! name = Some cfg ->
  drivers (self r) !! driver cfg = None ->
  getOrCreateClient name r = (inl (UnsupportedDatabaseDriverError (driver cfg)), r)
  \/ exists c, getOrCreateClient name r = (inr c, r).
Proof.
  intros Hcfg Hdrv. rewrite getOrCreateClient_eq, Hcfg.
  destruct (clients (self r) !! name) as [c|]; [right; by exists c|].
  left. by rewrite createClient_eq, Hdrv.
Qed.

Lemma transaction_eq callback connection r :
  transaction callback connection r =
    let name := str_or connection (defaultConnection (self r)) in
    match connections (self r) !! name with
    | None => (inl (DatabaseConnectionNotConfiguredError name), r)
    | Some cfg =>
        match getOrCreateClient name r with
        | (inl e, r') => (inl e, r')
        | (inr c, r') =>
            match drivers (self r) !! driver cfg with
            | None => (inl (UnsupportedDatabaseDriverError (driver cfg)), r')
            | Some d =>
                let '(res, w) := driver_transaction d c callback (world r') in
                (res, after_call r' (TransactionCalled (driver cfg) c) w)
            end
        end
    end.
Proof.
  unfold transaction, bind at 1, get. simpl.
  destruct (connections (self r) !! _) as [cfg|]; [|done].
  unfold bind at 1.
  pose proof (getOrCreateClient_drivers
                (str_or connection (defaultConnection (self r))) r) as Hd.
  destruct (getOrCreateClient _ r) as [[e|c] r']; [done|]. simpl in Hd.
  unfold bind. rewrite getDriver_eq, Hd.
  by destruct (drivers (self r) !! driver cfg).
Qed.

Lemma disconnect_eq connection r :
  disconnect connection r =
    let name := str_or connection (defaultConnection (self r)) in
    let c := default Undefined (clients (self r) !! name) in
    if truthy c then
      match connections (self r) !! name with
      | None => (inl (DatabaseConnectionNotConfiguredError name), r)
      | Some cfg =>
          match drivers (self r) !! driver cfg with
          | None =>
              (inr tt,
               {| self := self r; world := world r;
                  log := (log r ++
                            [ConsoleError (disconnect_failure name)
                               (UnsupportedDatabaseDriverError (driver cfg))])%list |})
          | Some d =>
              let ev := DisconnectCalled (driver cfg) c in
              match driver_disconnect d c (world r) with
              | (inr _, w) =>
                  (inr tt,
                   {| self := set_connectedClients
                                (connectedClients (self r) ∖ {[name]}) (self r);
                      world := w;
                      log := (log r ++ [ev])%list |})
              | (inl e, w) =>
                  (inr tt,
                   {| self := self r; world := w;
                      log := (log r ++ [ev]
                                ++ [ConsoleError (disconnect_failure name) e])%list |})
              end
          end
      end
    else (inl DatabaseNotInitializedError, r).
Proof.
  unfold disconnect, bind at 1, get. simpl.
  destruct (truthy (default Undefined (clients (self r) !! _))); [|done].
  simpl. destruct (connections (self r) !! _) as [cfg|]; [|done].
  unfold try_catch, bind at 1. rewrite getDriver_eq.
  destruct (drivers (self r) !! driver cfg) as [d|]; [|done].
  unfold bind, call, modify, console_error. simpl.
  destruct (driver_disconnect d _ (world r)) as [[e|[]] w]; simpl; [|done].
  by rewrite <- app_assoc.
Qed.

Lemma registerClient_eq name c drv r :
  registerClient name c drv r =
    match drivers (self r) !! drv with
    | None => (inl (UnsupportedDatabaseDriverError drv), r)
    | Some _ =>
        (inr tt,
         {| self :=
              {| defaultConnection := defaultConnection (self r);
                 connections :=
                   <[name := {| driver := drv; url := None;
                                connection := None; pool := None |}]>
                     (connections (self r));
                 clients := <[name := c]> (clients (self r));
                 connectedClients := {[name]} ∪ connectedClients (self r);
                 drivers := drivers (self r) |};
            world := world r;
            log := log r |})
    end.
Proof.
  unfold registerClient, bind at 1, get. simpl.
  by destruct (drivers (self r) !! drv).
Qed.

(** C2: a driver is resolved by one lookup of its name among the registered
    drivers. [getDriver] returns the driver registered under the name and
    throws [UnsupportedDatabaseDriverError] when there is none; creating a
    client, running a transaction and disconnecting go on with the driver
    found under the driver name of the configuration, and with no other, and
    meet that error when none is found (inside [disconnect], in the [try]
    block whose [catch] reports it); registering a client under an unknown
    driver name throws it and leaves the manager as it was. *)
Theorem driver_resolved_by_name name cfg callback connection c r :
  getDriver name r =
    match drivers (self r) !! name with
    | Some d => (inr d, r)
    | None => (inl (UnsupportedDatabaseDriverError name), r)
    end /\
  match drivers (self r) !! driver cfg with
  | None =>
      createClient name cfg r
        = (inl (UnsupportedDatabaseDriverError (driver cfg)), r) /\
      registerClient name c (driver cfg) r
        = (inl (UnsupportedDatabaseDriverError (driver cfg)), r) /\
      (connections (self r)
         !! str_or connection (defaultConnection (self r)) = Some cfg ->
       ((transaction callback connection r).1
          = inl (UnsupportedDatabaseDriverError (driver cfg)) /\
        (transaction callback connection r).2 = r) /\
       (forall e, (disconnect connection r).1 = inl e ->
                  e = DatabaseNotInitializedError) /\
       forall ev, ev ∈ log (disconnect connection r).2 ->
                  ev ∈ log r \/
                  ev = ConsoleError
                         (disconnect_failure
                            (str_or connection (defaultConnection (self r))))
                         (UnsupportedDatabaseDriverError (driver cfg)))
  | Some d =>
      createClient name cfg r =
        (let ev := CreateClientCalled (driver cfg) cfg name in
         match driver_createClient d cfg name (world r) with
         | (inr c', w) => (inr c', after_call r ev w)
         | (inl e, w) =>
             (inl (DatabaseClientCreationError (driver cfg) e),
              after_call r ev w)
         end) /\
      (registerClient name c (driver cfg) r).1 = inr tt /\
      (connections (self r)
         !! str_or connection (defaultConnection (self r)) = Some cfg ->
       (forall c' r',
          getOrCreateClient
            (str_or connection (defaultConnection (self r))) r = (inr c', r') ->
          transaction callback connection r =
            let '(res, w) := driver_transaction d c' callback (world r') in
            (res, after_call r' (TransactionCalled (driver cfg) c') w)) /\
       (forall c',
          clients (self r)
            !! str_or connection (defaultConnection (self r)) = Some c' ->
          truthy c' = true ->
          world (disconnect connection r).2
            = (driver_disconnect d c' (world r)).2 /\
          DisconnectCalled (driver cfg) c' ∈ log (disconnect connection r).2))
  end.
Proof.
  split; [apply getDriver_eq|].
  rewrite createClient_eq, registerClient_eq.
  destruct (drivers (self r) !! driver cfg) as [d|] eqn:Hdrv.
  - split; [done|]. split; [done|]. intros Hcfg. split.
    + intros c' r' Hget. rewrite transaction_eq. cbv zeta.
      by rewrite Hcfg, Hget, Hdrv.
    + intros c' Hc Htruthy. rewrite disconnect_eq. cbv zeta.
      rewrite Hc. simpl. rewrite Htruthy, Hcfg, Hdrv.
      destruct (driver_disconnect d c' (world r)) as [[e|[]] w]; simpl;
        split; set_solver.
  - split; [done|]. split; [done|]. intros Hcfg. split; [|split].
    + rewrite transaction_eq. cbv zeta. rewrite Hcfg.
      destruct (getOrCreateClient_unsupported _ r cfg Hcfg Hdrv)
        as [->|[c' ->]]; by rewrite ?Hdrv.
    + intros e. rewrite disconnect_eq. cbv zeta. rewrite Hcfg, Hdrv.
      destruct (truthy _); simpl; congruence.
    + intros ev. rewrite disconnect_eq. cbv zeta. rewrite Hcfg, Hdrv.
      destruct (truthy _); simpl; [|by left].
      rewrite elem_of_app, list_elem_of_singleton. tauto.
Qed.

(** *** Disconnecting *)

(** C9: [disconnect] lets no failure of the driver's [disconnect] out. When
    the driver throws for a connection that has a client and a
    configuration, the error is caught and reported, the call ends well and
    the manager is as before: the connection is in the connected set if it
    was, and its client is still stored. All that [disconnect] ever throws
    is its own two errors. *)
Theorem disconnect_contains_driver_failure connection r c cfg d e w :
  let name := str_or connection (defaultConnection (self r)) in
  clients (self r) !! name = Some c ->
  truthy c = true ->
  connections (self r) !! name = Some cfg ->
  drivers (self r) !! driver cfg = Some d ->
  driver_disconnect d c (world r) = (inl e, w) ->
  let after := disconnect connection r in
  after.1 = inr tt /\
  self after.2 = self r /\
  (name ∈ connectedClients (self r) ->
   name ∈ connectedClients (self after.2)) /\
  clients (self after.2) !! name = Some c /\
  log after.2 =
    (log r ++ [DisconnectCalled (driver cfg) c;
               ConsoleError (disconnect_failure name) e])%list /\
  forall connection' r' e',
    (disconnect connection' r').1 = inl e' ->
    e' = DatabaseNotInitializedError \/
    e' = DatabaseConnectionNotConfiguredError
           (str_or connection' (defaultConnection (self r'))).
Proof.
  intros name Hc Htruthy Hcfg Hdrv Hfail after. subst after.
  rewrite disconnect_eq. cbv zeta. fold name.
  rewrite Hc. simpl. rewrite Htruthy, Hcfg, Hdrv, Hfail. simpl.
  repeat split; try done.
  intros connection' r' e'. rewrite disconnect_eq. cbv zeta.
  destruct (truthy (default Undefined (clients (self r') !! _)));
    [|simpl; intros [= <-]; by left].
  destruct (connections (self r') !! _) as [cfg'|];
    [|simpl; intros [= <-]; by right].
  destruct (drivers (self r') !! driver cfg') as [d'|]; [|done].
  by destruct (driver_disconnect d' _ (world r')) as [[?|[]] ?].
Qed.

(** *** The accessors *)

Inductive Access : Type :=
| by_client (connection : option string)
| by_prisma (connection : option string)
| by_drizzle (connection : option string).

Definition access (a : Access) : M World (DatabaseManager World) Value :=
  match a with
  | by_client connection => client connection
  | by_prisma connection => prisma connection
  | by_drizzle connection => drizzle connection
  end.

(** Calls of the accessors, one after the other, whatever they return. *)
Fixpoint after_accesses (l : list Access) r
  : Run World (DatabaseManager World) :=
  match l with
  | [] => r
  | a :: l' => after_accesses l' (access a r).2
  end.

(** What the accessors leave alone: the default connection, the
    configurations, the drivers and the clients already stored. *)
Definition extends_clients r r' : Prop :=
  defaultConnection (self r') = defaultConnection (self r) /\
  connections (self r') = connections (self r) /\
  drivers (self r') = drivers (self r) /\
  forall name c, clients (self r) !! name = Some c ->
                 clients (self r') !! name = Some c.

Lemma extends_clients_refl r : extends_clients r r.
Proof. done. Qed.

Lemma extends_clients_trans r1 r2 r3 :
  extends_clients r1 r2 -> extends_clients r2 r3 -> extends_clients r1 r3.
Proof.
  intros (? & ? & ? & ?) (? & ? & ? & ?). repeat split; try congruence. eauto.
Qed.

Lemma getOrCreateClient_extends name r :
  extends_clients r (getOrCreateClient name r).2.
Proof.
  rewrite getOrCreateClient_eq.
  destruct (clients (self r) !! name) as [c|] eqn:Hc; [done|].
  destruct (connections (self r) !! name) as [cfg|]; [|done].
  pose proof (createClient_self name cfg r) as Hself.
  destruct (createClient name cfg r) as [[e|c] r']; simpl in *.
  - unfold extends_clients. by rewrite Hself.
  - unfold extends_clients. simpl. rewrite Hself. repeat split; try done.
    intros name' c' Hc'. rewrite lookup_insert_ne; [done|]. congruence.
Qed.

Lemma access_extends a r : extends_clients r (access a r).2.
Proof.
  destruct a as [connection|connection|connection]; simpl.
  - apply getOrCreateClient_extends.
  - rewrite prisma_eq. cbv zeta.
    destruct (connections (self r) !! _) as [cfg|]; [|done].
    destruct (String.eqb _ _); [apply getOrCreateClient_extends|done].
  - rewrite drizzle_eq. cbv zeta.
    destruct (connections (self r) !! _) as [cfg|]; [|done].
    destruct (String.eqb _ _); [apply getOrCreateClient_extends|done].
Qed.

Lemma after_accesses_extends l r : extends_clients r (after_accesses l r).
Proof.
  revert r. induction l as [|a l IH]; intros r; simpl; [done|].
  eapply extends_clients_trans; [apply access_extends|apply IH].
Qed.

(** C4, amended: [prisma(name)] returns [null], and does nothing else, if
    no connection configuration goes by the name or if its driver is not
    ['prisma']; if the driver is ['prisma'] it does what [client(name)] does,
    which returns the client of the connection or throws when none can be
    created. So a value other than [null] is returned only for a connection
    configured with that driver. [drizzle(name)] is the same with
    ['drizzle']. Without a connection argument the default connection is
    meant. *)
Theorem orm_accessors_switch_on_driver connection r :
  let name := str_or connection (defaultConnection (self r)) in
  (prisma None r = prisma (Some (defaultConnection (self r))) r /\
   drizzle None r = drizzle (Some (defaultConnection (self r))) r) /\
  match connections (self r) !! name with
  | None =>
      prisma connection r = (inr Null, r) /\
      drizzle connection r = (inr Null, r)
  | Some cfg =>
      (driver cfg = "prisma" -> prisma connection r = client connection r) /\
      (driver cfg <> "prisma" -> prisma connection r = (inr Null, r)) /\
      (driver cfg = "drizzle" -> drizzle connection r = client connection r) /\
      (driver cfg <> "drizzle" -> drizzle connection r = (inr Null, r))
  end /\
  (forall c, (prisma connection r).1 = inr c -> c <> Null ->
     exists cfg, connections (self r) !! name = Some cfg /\
                 driver cfg = "prisma") /\
  (forall c, (drizzle connection r).1 = inr c -> c <> Null ->
     exists cfg, connections (self r) !! name = Some cfg /\
                 driver cfg = "drizzle").
Proof.
  intros name. split; [|split; [|split]].
  - rewrite !prisma_eq, !drizzle_eq. cbv zeta.
    by rewrite str_or_default.
  - rewrite prisma_eq, drizzle_eq, client_eq. cbv zeta. fold name.
    destruct (connections (self r) !! name) as [cfg|]; [|done].
    destruct (String.eqb_spec (driver cfg) "prisma");
      destruct (String.eqb_spec (driver cfg) "drizzle");
      repeat split; intros; congruence.
  - intros c. rewrite prisma_eq. cbv zeta. fold name.
    destruct (connections (self r) !! name) as [cfg|];
      [|simpl; congruence].
    destruct (String.eqb_spec (driver cfg) "prisma");
      [eauto|simpl; congruence].
  - intros c. rewrite drizzle_eq. cbv zeta. fold name.
    destruct (connections (self r) !! name) as [cfg|];
      [|simpl; congruence].
    destruct (String.eqb_spec (driver cfg) "drizzle");
      [eauto|simpl; congruence].
Qed.

(** C8, amended: for a configured connection without a stored client, a call
    of [client()], or of the one of [prisma()] and [drizzle()] that goes
    with its driver, asks the driver for a client, once. When the driver
    gives one, the call returns it, stores it and marks the connection
    connected; after that, and after any further calls of the three
    accessors, [client()] and the accessor of the driver return that very
    client and leave the run as it is: no call reaches the driver. When the
    driver fails, the call throws and the manager is as before, so that the
    next call asks the driver again. *)
Theorem client_created_once connection r cfg d :
  let name := str_or connection (defaultConnection (self r)) in
  connections (self r) !! name = Some cfg ->
  clients (self r) !! name = None ->
  drivers (self r) !! driver cfg = Some d ->
  let first := client connection r in
  let asked := driver_createClient d cfg name (world r) in
  (driver cfg = "prisma" -> prisma connection r = first) /\
  (driver cfg = "drizzle" -> drizzle connection r = first) /\
  world first.2 = asked.2 /\
  log first.2 = (log r ++ [CreateClientCalled (driver cfg) cfg name])%list /\
  match asked.1 with
  | inr c =>
      first.1 = inr c /\
      clients (self first.2) !! name = Some c /\
      name ∈ connectedClients (self first.2) /\
      forall l,
        let later := after_accesses l first.2 in
        client connection later = (inr c, later) /\
        (driver cfg = "prisma" -> prisma connection later = (inr c, later)) /\
        (driver cfg = "drizzle" -> drizzle connection later = (inr c, later))
  | inl e =>
      first.1 = inl (DatabaseClientCreationError (driver cfg) e) /\
      self first.2 = self r
  end.
Proof.
  intros name Hcfg Hnone Hdrv first asked.
  assert (Hfirst : first = getOrCreateClient name r) by done.
  assert (Hget : getOrCreateClient name r =
            match asked with
            | (inr c, w) =>
                (inr c,
                 after_store
                   (after_call r (CreateClientCalled (driver cfg) cfg name) w)
                   name c)
            | (inl e, w) =>
                (inl (DatabaseClientCreationError (driver cfg) e),
                 after_call r (CreateClientCalled (driver cfg) cfg name) w)
            end).
  { rewrite getOrCreateClient_eq, Hnone, Hcfg, createClient_eq, Hdrv.
    cbv zeta. fold asked. by destruct asked as [[e|c] w]. }
  split; [|split].
  - intros Hp. rewrite prisma_eq. cbv zeta. fold name. rewrite Hcfg.
    by destruct (String.eqb_spec (driver cfg) "prisma").
  - intros Hp. rewrite drizzle_eq. cbv zeta. fold name. rewrite Hcfg.
    by destruct (String.eqb_spec (driver cfg) "drizzle").
  - rewrite Hfirst, Hget. clear Hfirst Hget.
    destruct asked as [[e|c] w]; simpl; [done|].
    split; [done|]. split; [done|].
    split; [done|]. split; [apply lookup_insert_eq|]. split; [set_solver|].
    intros l.
    destruct (after_accesses_extends l
                (after_store
                   (after_call r (CreateClientCalled (driver cfg) cfg name) w)
                   name c)) as (Hdflt & Hconns & _ & Hclients).
    set (later := after_accesses l _) in *. simpl in Hdflt, Hconns.
    assert (Hname : str_or connection (defaultConnection (self later)) = name)
      by by rewrite Hdflt.
    assert (Hstored : clients (self later) !! name = Some c).
    { apply Hclients. simpl. apply lookup_insert_eq. }
    rewrite prisma_eq, drizzle_eq, client_eq. cbv zeta.
    rewrite Hname, Hconns, Hcfg, (getOrCreateClient_stored _ _ _ Hstored).
    split; [done|].
    split; intros Hp;
      [by destruct (String.eqb_spec (driver cfg) "prisma")
      |by destruct (String.eqb_spec (driver cfg) "drizzle")].
Qed.

End ManagerFacts.

(** *** Runs of a manager *)

Section Reachability.

Context {World : Type}.

Implicit Types (r : Run World (DatabaseManager World))
  (m : DatabaseManager World).

(** The public methods, with their arguments. *)
Inductive Command : Type :=
| do_setDefaultConnection (name : string)
| do_access (a : Access)
| do_transaction (callback : Callback World) (connection : option string)
| do_disconnect (connection : option string)
| do_disconnectAll
| do_isConnected (connection : option string)
| do_registerClient (name : string) (c : Value) (drv : string)
| do_registerDriver (name : string) (d : DatabaseDriver World).

(** The run after a method was called, whether it returned or threw. *)
Definition run (cmd : Command) r : Run World (DatabaseManager World) :=
  match cmd with
  | do_setDefaultConnection name => (setDefaultConnection name r).2
  | do_access a => (access a r).2
  | do_transaction callback connection => (transaction callback connection r).2
  | do_disconnect connection => (disconnect connection r).2
  | do_disconnectAll => (disconnectAll r).2
  | do_isConnected connection => (isConnected connection r).2
  | do_registerClient name c drv => (registerClient name c drv r).2
  | do_registerDriver name d => (registerDriver name d r).2
  end.

(** Every stored client belongs to a connection whose configuration names a
    registered driver. *)
Definition clients_have_drivers m : Prop :=
  forall name c,
    clients m !! name = Some c ->
    exists cfg, connections m !! name = Some cfg /\
                is_Some (drivers m !! driver cfg).

(** Two managers with the same configurations, clients and drivers. *)
Definition same_stores m m' : Prop :=
  connections m' = connections m /\
  clients m' = clients m /\
  drivers m' = drivers m.

Lemma same_stores_have_drivers m m' :
  same_stores m m' -> clients_have_drivers m -> clients_have_drivers m'.
Proof.
  intros (Hc & Hcl & Hd) H name c. rewrite Hc, Hcl, Hd. apply H.
Qed.

Lemma getOrCreateClient_have_drivers name r :
  clients_have_drivers (self r) ->
  clients_have_drivers (self (getOrCreateClient name r).2).
Proof.
  intros H. rewrite getOrCreateClient_eq.
  destruct (clients (self r) !! name) as [c|] eqn:Hc; [done|].
  destruct (connections (self r) !! name) as [cfg|] eqn:Hcfg; [|done].
  rewrite createClient_eq.
  destruct (drivers (self r) !! driver cfg) as [d|] eqn:Hd; [|done].
  simpl.
  destruct (driver_createClient d cfg name (world r)) as [[e|c] w];
    [done|].
  intros name' c'. simpl.
  destruct (decide (name = name')) as [<-|Hne].
  - intros _. exists cfg. by rewrite Hd.
  - rewrite lookup_insert_ne by done. apply H.
Qed.

Lemma access_have_drivers a r :
  clients_have_drivers (self r) ->
  clients_have_drivers (self (access a r).2).
Proof.
  intros H. destruct a as [connection|connection|connection]; simpl.
  - by apply getOrCreateClient_have_drivers.
  - rewrite prisma_eq. cbv zeta.
    destruct (connections (self r) !! _) as [cfg|]; [|done].
    destruct (String.eqb _ _); [by apply getOrCreateClient_have_drivers|done].
  - rewrite drizzle_eq. cbv zeta.
    destruct (connections (self r) !! _) as [cfg|]; [|done].
    destruct (String.eqb _ _); [by apply getOrCreateClient_have_drivers|done].
Qed.

Lemma disconnect_same_stores connection r :
  same_stores (self r) (self (disconnect connection r).2).
Proof.
  rewrite disconnect_eq. cbv zeta.
  destruct (truthy _); [|done].
  destruct (connections (self r) !! _) as [cfg|]; [|done].
  destruct (drivers (self r) !! driver cfg) as [d|]; [|done].
  by destruct (driver_disconnect d _ (world r)) as [[e|[]] w].
Qed.

Lemma settle_all_same_stores (names : list string) r :
  same_stores (self r)
    (self (settle_all
             (List.map (fun name => disconnect (Some name)) names) r).2).
Proof.
  revert r. induction names as [|name names IH]; intros r; simpl; [done|].
  pose proof (disconnect_same_stores (Some name) r) as (H1 & H2 & H3).
  destruct (disconnect (Some name) r) as [[e|[]] r']; simpl in *;
    destruct (IH r') as (H1' & H2' & H3');
    repeat split; congruence.
Qed.

Lemma run_have_drivers cmd r :
  clients_have_drivers (self r) -> clients_have_drivers (self (run cmd r)).
Proof.
  intros H.
  destruct cmd as [name|a|callback conn|conn| |conn|name c drv|name d]; simpl.
  - unfold setDefaultConnection, bind, get. simpl.
    by destruct (connections (self r) !! name).
  - by apply access_have_drivers.
  - rewrite transaction_eq. cbv zeta.
    destruct (connections (self r) !! _) as [cfg|]; [|done].
    pose proof (getOrCreateClient_have_drivers
                  (str_or conn (defaultConnection (self r))) r H) as H'.
    destruct (getOrCreateClient _ r) as [[e|c] r']; [done|].
    destruct (drivers (self r) !! driver cfg) as [d|]; [|done].
    by destruct (driver_transaction d c callback (world r')).
  - eapply same_stores_have_drivers; [apply disconnect_same_stores|done].
  - unfold disconnectAll, bind at 1, get. simpl. unfold bind at 1.
    pose proof (settle_all_same_stores (map_to_list (clients (self r))).*1 r)
      as Hsame.
    destruct (settle_all _ r) as [[e|[]] r']; simpl in *.
    + by eapply same_stores_have_drivers.
    + intros name c. unfold bind, modify. simpl. by rewrite lookup_empty.
  - done.
  - rewrite registerClient_eq.
    destruct (drivers (self r) !! drv) as [d|] eqn:Hd; [|done].
    intros name' c'. simpl.
    destruct (decide (name = name')) as [<-|Hne].
    + intros _. rewrite lookup_insert_eq. eexists. split; [done|].
      simpl. by rewrite Hd.
    + rewrite !lookup_insert_ne by done. apply H.
  - intros name' c Hc. destruct (H name' c Hc) as (cfg & Hcfg & Hd).
    exists cfg. split; [done|]. simpl.
    destruct (decide (name = driver cfg)) as [->|Hne].
    + by rewrite lookup_insert_eq.
    + by rewrite lookup_insert_ne.
Qed.

(** In every run that starts from [new DatabaseManager(config)], the client
    that [disconnect] and [transaction] find for a connection comes with a
    configuration whose driver is registered: their lookup of the driver
    does not fail. *)
Lemma stored_client_has_driver ext config w (cmds : list Command) :
  clients_have_drivers
    (self (foldl (fun r cmd => run cmd r)
             {| self := new_manager ext config; world := w; log := [] |}
             cmds)).
Proof.
  induction cmds as [|cmd cmds IH] using rev_ind; simpl.
  - intros name c. simpl. by rewrite lookup_empty.
  - rewrite foldl_app. simpl. by apply run_have_drivers.
Qed.

End Reachability.

(** *** The facade *)

Section FacadeFacts.

Context {World : Type}.

Implicit Types (r : Run World (DB.DBFacade World)).

(** [DB.prisma()] and [DB.drizzle()] return what the manager's accessor
    returns when that is a client, and throw where the manager returns
    [null]. *)
Lemma facade_accessors_return_clients connection r c :
  ((DB.prisma connection r).1 = inr c ->
   truthy c = true /\ (DB.on_manager (prisma connection) r).1 = inr c) /\
  ((DB.drizzle connection r).1 = inr c ->
   truthy c = true /\ (DB.on_manager (drizzle connection) r).1 = inr c).
Proof.
  split.
  - unfold DB.prisma, bind at 1.
    destruct (DB.on_manager (prisma connection) r) as [[e|c'] r']; [done|].
    destruct (truthy c') eqn:Ht; simpl.
    + by intros [= ->].
    + unfold bind, throw.
      by destruct (DB.on_manager getDefaultConnection r') as [[?|?] ?].
  - unfold DB.drizzle, bind at 1.
    destruct (DB.on_manager (drizzle connection) r) as [[e|c'] r']; [done|].
    destruct (truthy c') eqn:Ht; simpl.
    + by intros [= ->].
    + unfold bind, throw.
      by destruct (DB.on_manager getDefaultConnection r') as [[?|?] ?].
Qed.

End FacadeFacts.

(** *** A manager with two connections *)

(** A Prisma client, as far as the drivers look at it. *)
Definition prisma_client : Value :=
  Object [("$transaction", Function [] Null);
          ("$disconnect", Function [] Null)] Null.

Definition drizzle_client : Value :=
  Object [("transaction", Function [] Null)] Null.

(** ORM modules that hand out clients, on a server that does not answer
    when a client takes its leave. *)
Definition unreachable_server : Externals unit :=
  {| getPrismaClient := fun w => (inr prisma_client, w);
     getDrizzleClient := fun _ w => (inr drizzle_client, w);
     invoke_with := fun c _ callback w => callback c w;
     invoke := fun _ _ w => (inl (Thrown (Str "connection lost")), w) |}.

Definition primary : ConnectionConfig :=
  {| driver := "prisma";
     url := Some "postgresql://localhost:5432/app";
     connection := None;
     pool := Some {| min := Some 2; max := Some 10; idleTimeoutMillis := None |} |}.

(** A Drizzle connection whose configuration gives neither [url] nor
    [connection], both of which the configuration schema lets out. *)
Definition analytics : ConnectionConfig :=
  {| driver := "drizzle"; url := None; connection := None; pool := None |}.

Definition two_connections : DatabaseConfig :=
  {| config_default := "default";
     config_connections := [("default", primary); ("analytics", analytics)] |}.

Definition fresh : Run unit (DatabaseManager unit) :=
  {| self := new_manager unreachable_server two_connections;
     world := tt;
     log := [] |}.

(** The same manager once its default connection is in use. *)
Definition in_use : Run unit (DatabaseManager unit) :=
  (client None fresh).2.

Lemma disconnect_contains_driver_failure_witness :
  clients (self in_use) !! "default" = Some prisma_client /\
  truthy prisma_client = true /\
  connections (self in_use) !! "default" = Some primary /\
  drivers (self in_use) !! "prisma" = Some (PrismaDriver unreachable_server) /\
  driver_disconnect (PrismaDriver unreachable_server) prisma_client tt
    = (inl (Thrown (Str "connection lost")), tt) /\
  (disconnect None in_use).1 = inr tt /\
  self (disconnect None in_use).2 = self in_use.
Proof.
  assert (H1 : clients (self in_use) !! "default" = Some prisma_client)
    by reflexivity.
  assert (H2 : truthy prisma_client = true) by reflexivity.
  assert (H3 : connections (self in_use) !! "default" = Some primary)
    by reflexivity.
  assert (H4 : drivers (self in_use) !! "prisma"
               = Some (PrismaDriver unreachable_server)) by reflexivity.
  assert (H5 : driver_disconnect (PrismaDriver unreachable_server)
                 prisma_client tt
               = (inl (Thrown (Str "connection lost")), tt)) by reflexivity.
  repeat (split; [assumption|]).
  pose proof (disconnect_contains_driver_failure None in_use prisma_client
                primary (PrismaDriver unreachable_server)
                (Thrown (Str "connection lost")) tt H1 H2 H3 H4 H5)
    as (Hres & Hself & _).
  split; [exact Hres | exact Hself].
Defined.

Lemma client_created_once_witness :
  connections (self fresh) !! "default" = Some primary /\
  clients (self fresh) !! "default" = None /\
  drivers (self fresh) !! "prisma" = Some (PrismaDriver unreachable_server) /\
  (client None fresh).1 = inr prisma_client /\
  forall l,
    client None (after_accesses l (client None fresh).2)
      = (inr prisma_client, after_accesses l (client None fresh).2).
Proof.
  assert (H1 : connections (self fresh) !! "default" = Some primary)
    by reflexivity.
  assert (H2 : clients (self fresh) !! "default" = None) by reflexivity.
  assert (H3 : drivers (self fresh) !! "prisma"
               = Some (PrismaDriver unreachable_server)) by reflexivity.
  repeat (split; [assumption|]).
  pose proof (client_created_once None fresh primary
                (PrismaDriver unreachable_server) H1 H2 H3)
    as (_ & _ & _ & _ & Hres & _ & _ & Hlater).
  split; [exact Hres|].
  intros l. exact (proj1 (Hlater l)).
Defined.

(** C4 as stated: an accessor returns a client exactly for the connections
    configured with its driver. *)
Definition returns_client_iff_configured
  (accessor : option string -> M unit (DatabaseManager unit) Value)
  (orm : string) (r : Run unit (DatabaseManager unit)) (name : string) : Prop :=
  (exists c, (accessor (Some name) r).1 = inr c /\ c <> Null) <->
  (exists cfg, connections (self r) !! name = Some cfg /\ driver cfg = orm).

(** It fails where the client cannot be created: [analytics] is configured
    with the driver ['drizzle'], and [drizzle('analytics')] throws. *)
Lemma drizzle_configured_without_client :
  (drizzle (Some "analytics") fresh).1
    = inl (DatabaseClientCreationError "drizzle"
             (JsError "Drizzle connection URL is required in config")) /\
  ~ returns_client_iff_configured drizzle "drizzle" fresh "analytics".
Proof.
  assert (H : (drizzle (Some "analytics") fresh).1
              = inl (DatabaseClientCreationError "drizzle"
                       (JsError "Drizzle connection URL is required in config")))
    by reflexivity.
  split; [exact H|].
  intros [_ Hif].
  destruct Hif as (c & Hc & _); [by exists analytics|].
  rewrite H in Hc. discriminate.
Qed.

(** C8 as stated: the first call for a configured connection stores a
    client and marks the connection connected, and the next call does not
    reach the driver. *)
Definition first_call_stores_client
  (r : Run unit (DatabaseManager unit)) (name : string) : Prop :=
  let first := (client (Some name) r).2 in
  is_Some (clients (self first) !! name) /\
  name ∈ connectedClients (self first) /\
  log (client (Some name) first).2 = log first.

(** The manager after a first call for the connection [analytics]. *)
Definition after_failure : Run unit (DatabaseManager unit) :=
  (client (Some "analytics") fresh).2.

(** It fails where the driver fails: nothing is stored, the connection is
    not marked, and the second call asks the driver again. *)
Lemma failed_creation_is_retried :
  (client (Some "analytics") fresh).1
    = inl (DatabaseClientCreationError "drizzle"
             (JsError "Drizzle connection URL is required in config")) /\
  clients (self after_failure) !! "analytics" = None /\
  log after_failure = [CreateClientCalled "drizzle" analytics "analytics"] /\
  log (client (Some "analytics") after_failure).2
    = [CreateClientCalled "drizzle" analytics "analytics";
       CreateClientCalled "drizzle" analytics "analytics"] /\
  ~ first_call_stores_client fresh "analytics".
Proof.
  assert (H : clients (self after_failure) !! "analytics" = None)
    by reflexivity.
  split; [reflexivity|]. split; [exact H|].
  split; [reflexivity|]. split; [reflexivity|].
  intros [[c Hc] _]. fold after_failure in Hc. rewrite H in Hc. discriminate.
Qed.

End DatabaseFacts.

Set Warnings "-clear-no-such-hyp".

(** ** The rest of the error and response code *)

Module ResponseFacts.
Import Js FrameworkError ApiResponse ErrorFacts ApiFacts.
Import DatabaseErrors HttpKernel ApiHelpers.

(** The object [toProblemDetails] has built when it comes to the details. *)
Lemma toProblemDetails_base e k :
  k ∈ own_members ->
  (match details e with
   | Some d => assoc k d = None
   | None => True
   end) ->
  toProblemDetails e !! k =
    if String.eqb k "type" then
      Some (Str (str_or (typeUri e) DEFAULT_PROBLEM_TYPE))
    else if String.eqb k "title" then Some (Str (code_value (code e)))
    else if String.eqb k "status" then Some (Num (httpStatusCode e))
    else if String.eqb k "detail" then Some (Str (message e))
    else if String.eqb k "code" then Some (Str (code_value (code e)))
    else if String.eqb k "timestamp" then
      Some (Str (toISOString (timestamp e)))
    else
      match instance e with
      | Some i => if string_truthy i then Some (Str i) else None
      | None => None
      end.
Proof.
  intros Hk Havoid. unfold toProblemDetails.
  assert (Hbase : forall pd : ProblemDetails,
             match details e with
             | Some d => assign_entries d pd
             | None => pd
             end !! k = pd !! k).
  { intros pd. destruct (details e) as [d|]; [|done].
    by apply assign_entries_other. }
  rewrite Hbase. unfold own_members in Hk.
  repeat (apply elem_of_cons in Hk as [->|Hk]);
    [ | | | | | | | by apply elem_of_nil in Hk];
    simpl;
    (destruct (instance e) as [i|]; [destruct (string_truthy i)|]);
    by simplify_map_eq.
Qed.

Lemma details_avoid_member names d k :
  details_avoid names d -> k ∈ names ->
  match d with
  | Some d => assoc k d = None
  | None => True
  end.
Proof.
  destruct d as [d|]; [|done]. simpl. rewrite Forall_forall. auto.
Qed.

Lemma details_avoid_subset names names' d :
  details_avoid names d -> names' ⊆ names -> details_avoid names' d.
Proof.
  destruct d as [d|]; [|done]. simpl. rewrite !Forall_forall. auto.
Qed.

Lemma converts_when_avoiding cls args now :
  details_avoid own_members (arg_details args) ->
  converts_uniformly (construct cls args now)
    (toProblemDetails (construct cls args now)).
Proof.
  intros Havoid. unfold converts_uniformly.
  repeat split;
    (rewrite toProblemDetails_base;
     [done
     |unfold own_members; set_solver
     |apply (details_avoid_member own_members); [done|unfold own_members; set_solver]]).
Qed.

Lemma super_args_avoid e : details_avoid own_members (arg_details (super_args e)).
Proof. destruct e; simpl; repeat constructor. Qed.

(** Every error of database/DatabaseErrors.ts is a server error with the
    status 500, whatever its arguments. Its details never take the place of
    a member of its Problem Details, which name its own type under
    [urn:frourio:errors:database/] (never the default type), and every
    handler of [ApiResponse] answers it with 500. *)
Theorem database_errors_are_server_errors e now h :
  let err := new_error e now in
  httpStatusCode err = 500 /\
  isServerError err = true /\
  isClientError err = false /\
  converts_uniformly err (toProblemDetails err) /\
  (exists slug,
     toProblemDetails err !! "type"
       = Some (Str (DATABASE_ERROR_TYPE_BASE ++ "/" ++ slug))) /\
  toProblemDetails err !! "type" <> Some (Str DEFAULT_PROBLEM_TYPE) /\
  status (handle h (ThrownFramework err)) = Num 500.
Proof.
  intros err.
  assert (Hconv : converts_uniformly err (toProblemDetails err))
    by apply converts_when_avoiding, super_args_avoid.
  assert (Hstatus : httpStatusCode err = 500) by by destruct e.
  destruct Hconv as (Htype & Hrest).
  split; [done|]. split; [by destruct e|]. split; [by destruct e|].
  split; [by split|]. split; [|split].
  - rewrite Htype. destruct e; simpl; eexists; reflexivity.
  - rewrite Htype. by destruct e.
  - assert (Hkeep : keeps_status (ThrownFramework err)).
    { split.
      - by exists (class_name e), (super_args e), now.
      - destruct e; simpl; repeat constructor. }
    assert (Hall : forall d,
               status (returnProblemDetails (ThrownFramework err) d) = Num 500).
    { intros d.
      destruct (returnProblemDetails_response _ d Hkeep)
        as (_ & _ & _ & _ & _ & ->).
      simpl. by destruct e. }
    destruct h; apply Hall.
Qed.

(** The error handler of the HTTP kernel answers a framework error with the
    status of its code, which is 400 or more, whatever its details say, and
    with the body that [ApiResponse.error] gives it; when no details entry is
    named [status], the body names that status and [ApiResponse] answers with
    it too. Any other error is passed on as it is, with nothing logged. *)
Theorem kernel_answers_with_code_status media cls args now request h :
  let e := construct cls args now in
  errorHandler media (ThrownFramework e) request
    = ([(e, request)],
       Problem (ErrorCodeToHttpStatus (arg_code args)) media
         (body (handle h (ThrownFramework e)))) /\
  400 <= ErrorCodeToHttpStatus (arg_code args) /\
  (details_avoid ["status"] (arg_details args) ->
   body (handle h (ThrownFramework e)) !! "status"
     = Some (Num (ErrorCodeToHttpStatus (arg_code args))) /\
   status (handle h (ThrownFramework e))
     = Num (ErrorCodeToHttpStatus (arg_code args))) /\
  (forall error,
     (forall e', error <> ThrownFramework e') ->
     errorHandler media error request = ([], Forwarded error)).
Proof.
  intros e. split; [by destruct h|]. split; [apply status_table_range|].
  split.
  - intros Havoid.
    assert (Hkeep : keeps_status (ThrownFramework e)).
    { split; [by exists cls, args, now|done]. }
    assert (Hall : forall d,
               problem_response (ThrownFramework e)
                 (returnProblemDetails (ThrownFramework e) d))
      by (intros d; by apply returnProblemDetails_response).
    assert (Hh : problem_response (ThrownFramework e)
                   (handle h (ThrownFramework e)))
      by (destruct h; apply Hall).
    destruct Hh as (_ & _ & _ & _ & Hb & Hs). by rewrite Hb, Hs.
  - intros error Hne. destruct error as [e'| |]; [|done|done].
    by destruct (Hne e').
Qed.

(** The status a handler falls back on. *)
Definition fallback (h : Handler) : Z :=
  match h with
  | error_handler d => default 500 d
  | method_get => 404
  | method_patch => 403
  | method_post | method_put | method_delete => 500
  end.

(** What the details of a framework error say of the status, if they do. *)
Definition status_entry (error : Thrown) : option Value :=
  match error with
  | ThrownFramework e =>
      match details e with
      | Some d => assoc "status" (reverse d)
      | None => None
      end
  | ThrownError _ _ | ThrownOther _ => None
  end.

Lemma body_status error :
  errorToProblemDetails error !! "status" =
    match status_entry error with
    | Some v => Some v
    | None =>
        match error with
        | ThrownFramework e => Some (Num (httpStatusCode e))
        | ThrownError _ _ | ThrownOther _ => Some (Num 500)
        end
    end.
Proof.
  destruct error as [e|nm msg|text]; simpl.
  - unfold toProblemDetails.
    destruct (details e) as [d|].
    + rewrite assign_entries_lookup.
      destruct (assoc "status" (reverse d)); [done|].
      destruct (instance e) as [i|]; [destruct (string_truthy i)|];
        by simplify_map_eq.
    + destruct (instance e) as [i|]; [destruct (string_truthy i)|];
        by simplify_map_eq.
  - unfold createProblemDetails, assign_entries. simpl. by simplify_map_eq.
  - unfold createProblemDetails, assign_entries. simpl. by simplify_map_eq.
Qed.

(** The handlers of [ApiResponse.method] and [ApiResponse.error] differ by
    their default status only, and the default is used for one kind of
    error only: a framework error whose details give [undefined] or [null]
    for [status]. For every other error, all of them return the same
    response. *)
Theorem default_status_only_without_status h h' error :
  match status_entry error with
  | Some Undefined | Some Null =>
      status (handle h error) = Num (fallback h) /\
      body (handle h error) !! "status" = status_entry error
  | _ => handle h error = handle h' error
  end.
Proof.
  assert (Hall : forall d,
             returnProblemDetails error d =
               {| status :=
                    nullish_or (errorToProblemDetails error !! "status")
                      (Num (default 500 d));
                  body := errorToProblemDetails error |}) by done.
  assert (Hh : forall h0,
             handle h0 error =
               {| status :=
                    nullish_or (errorToProblemDetails error !! "status")
                      (Num (fallback h0));
                  body := errorToProblemDetails error |})
    by (intros h0; by destruct h0).
  rewrite !Hh. simpl. rewrite !body_status.
  destruct (status_entry error)
    as [[| |p|props proto|props proto|p props proto]|]; simpl; try done.
  by destruct error.
Qed.




End ResponseFacts.

(** ** More of the database manager *)

Module ManagerRuns.
Import Js Database DatabaseFacts.

Section Runs.

Context {World : Type}.

Implicit Types (r : Run World (DatabaseManager World))
  (m : DatabaseManager World) (d : DatabaseDriver World)
  (cfg : ConnectionConfig).

(** Every connection marked connected has a stored client. *)
Definition connected_have_clients m : Prop :=
  forall name, name ∈ connectedClients m -> is_Some (clients m !! name).

Lemma getOrCreateClient_connected name r :
  connected_have_clients (self r) ->
  connected_have_clients (self (getOrCreateClient name r).2).
Proof.
  intros H. rewrite getOrCreateClient_eq.
  destruct (clients (self r) !! name) as [c|] eqn:Hc; [done|].
  destruct (connections (self r) !! name) as [cfg|]; [|done].
  pose proof (createClient_self name cfg r) as Hself.
  destruct (createClient name cfg r) as [[e|c] r']; simpl in *;
    [by rewrite Hself|].
  intros name'. simpl. rewrite Hself.
  destruct (decide (name = name')) as [<-|Hne].
  - intros _. by rewrite lookup_insert_eq.
  - rewrite lookup_insert_ne by done. intros Hin. apply H. set_solver.
Qed.

Lemma access_connected a r :
  connected_have_clients (self r) ->
  connected_have_clients (self (access a r).2).
Proof.
  intros H. destruct a as [conn|conn|conn]; simpl.
  - by apply getOrCreateClient_connected.
  - rewrite prisma_eq. cbv zeta.
    destruct (connections (self r) !! _) as [cfg|]; [|done].
    destruct (String.eqb _ _); [by apply getOrCreateClient_connected|done].
  - rewrite drizzle_eq. cbv zeta.
    destruct (connections (self r) !! _) as [cfg|]; [|done].
    destruct (String.eqb _ _); [by apply getOrCreateClient_connected|done].
Qed.

(** [disconnect] stores and removes no client and marks no connection. *)
Lemma disconnect_unmarks_only conn r :
  clients (self (disconnect conn r).2) = clients (self r) /\
  connectedClients (self (disconnect conn r).2) ⊆ connectedClients (self r).
Proof.
  rewrite disconnect_eq. cbv zeta.
  destruct (truthy _); [|done].
  destruct (connections (self r) !! _) as [cfg|]; [|done].
  destruct (drivers (self r) !! driver cfg) as [d|]; [|done].
  destruct (driver_disconnect d _ (world r)) as [[e|[]] w]; simpl;
    [done|]. split; [done|set_solver].
Qed.

Lemma settle_all_unmarks_only (names : list string) r :
  clients (self (settle_all
                   (List.map (fun name => disconnect (Some name)) names)
                   r).2) = clients (self r) /\
  connectedClients
    (self (settle_all
             (List.map (fun name => disconnect (Some name)) names) r).2)
    ⊆ connectedClients (self r).
Proof.
  revert r. induction names as [|name names IH]; intros r; simpl; [done|].
  pose proof (disconnect_unmarks_only (Some name) r) as [H1 H2].
  destruct (disconnect (Some name) r) as [[e|[]] r']; simpl in *;
    destruct (IH r') as [H1' H2']; split; try congruence; set_solver.
Qed.

Lemma run_connected cmd r :
  connected_have_clients (self r) ->
  connected_have_clients (self (run cmd r)).
Proof.
  intros H.
  destruct cmd as [name|a|callback conn|conn| |conn|name c drv|name d]; simpl.
  - unfold setDefaultConnection, bind, get. simpl.
    by destruct (connections (self r) !! name).
  - by apply access_connected.
  - rewrite transaction_eq. cbv zeta.
    destruct (connections (self r) !! _) as [cfg|]; [|done].
    pose proof (getOrCreateClient_connected
                  (str_or conn (defaultConnection (self r))) r H) as H'.
    destruct (getOrCreateClient _ r) as [[e|c] r']; [done|].
    destruct (drivers (self r) !! driver cfg) as [d|]; [|done].
    by destruct (driver_transaction d c callback (world r')).
  - destruct (disconnect_unmarks_only conn r) as [H1 H2].
    intros name Hin. rewrite H1. apply H. set_solver.
  - unfold disconnectAll, bind at 1, get. simpl. unfold bind at 1.
    pose proof (settle_all_unmarks_only
                  (map_to_list (clients (self r))).*1 r) as [H1 H2].
    destruct (settle_all _ r) as [[e|[]] r']; simpl in *.
    + intros name Hin. rewrite H1. apply H. set_solver.
    + intros name. unfold bind, modify. simpl. set_solver.
  - done.
  - rewrite registerClient_eq.
    destruct (drivers (self r) !! drv) as [d|] eqn:Hd; [|done].
    intros name'. simpl.
    destruct (decide (name = name')) as [<-|Hne].
    + intros _. by rewrite lookup_insert_eq.
    + rewrite lookup_insert_ne by done. intros Hin. apply H. set_solver.
  - done.
Qed.

(** In every run that starts from [new DatabaseManager(config)], a
    connection that [isConnected] reports has a client in the cache. *)
Theorem connected_connection_has_client ext config w (cmds : list Command)
  (conn : option string) :
  let r := foldl (fun r cmd => run cmd r)
             {| self := new_manager ext config; world := w; log := [] |}
             cmds in
  (isConnected conn r).1 = inr true ->
  is_Some (clients (self r) !! str_or conn (defaultConnection (self r))).
Proof.
  intros r.
  assert (Hinv : connected_have_clients (self r)).
  { subst r. induction cmds as [|cmd cmds IH] using rev_ind; simpl.
    - intros name. simpl. set_solver.
    - rewrite foldl_app. simpl. by apply run_connected. }
  unfold isConnected, bind, get, ret. simpl. intros [= Hin].
  apply Hinv. by apply bool_decide_eq_true in Hin.
Qed.

End Runs.

Lemma connected_connection_has_client_witness :
  (isConnected None
     (foldl (fun r cmd => run cmd r) fresh [do_access (by_client None)])).1
    = inr true /\
  is_Some
    (clients
       (self (foldl (fun r cmd => run cmd r) fresh
                [do_access (by_client None)])) !! "default").
Proof.
  assert (H : (isConnected None
                 (foldl (fun r cmd => run cmd r) fresh
                    [do_access (by_client None)])).1 = inr true)
    by reflexivity.
  split; [exact H|].
  exact (connected_connection_has_client unreachable_server two_connections
           tt [do_access (by_client None)] None H).
Defined.

Section Operations.

Context {World : Type}.

Implicit Types (r : Run World (DatabaseManager World))
  (m : DatabaseManager World) (d : DatabaseDriver World)
  (cfg : ConnectionConfig).

(** A [disconnect] that goes well unmarks the connection and keeps its
    client in the cache: [isConnected] is false afterwards, and [client()]
    still returns the client that was disconnected, without asking the
    driver for a new one and without marking the connection again. *)
Theorem disconnect_keeps_client conn r c cfg d w :
  let name := str_or conn (defaultConnection (self r)) in
  clients (self r) !! name = Some c ->
  truthy c = true ->
  connections (self r) !! name = Some cfg ->
  drivers (self r) !! driver cfg = Some d ->
  driver_disconnect d c (world r) = (inr tt, w) ->
  let after := (disconnect conn r).2 in
  (disconnect conn r).1 = inr tt /\
  (isConnected conn after).1 = inr false /\
  clients (self after) = clients (self r) /\
  client conn after = (inr c, after).
Proof.
  intros name Hc Htruthy Hcfg Hdrv Hok after. subst after.
  rewrite disconnect_eq. cbv zeta. fold name.
  rewrite Hc. simpl. rewrite Htruthy, Hcfg, Hdrv, Hok. simpl.
  split; [done|]. split; [|split; [done|]].
  - unfold isConnected, bind, get, ret. simpl. fold name. f_equal.
    apply bool_decide_eq_false. set_solver.
  - rewrite client_eq. simpl. fold name.
    by rewrite getOrCreateClient_eq; simpl; rewrite Hc.
Qed.

Lemma disconnect_succeeds conn r c cfg :
  clients (self r) !! str_or conn (defaultConnection (self r)) = Some c ->
  truthy c = true ->
  connections (self r) !! str_or conn (defaultConnection (self r)) = Some cfg ->
  (disconnect conn r).1 = inr tt.
Proof.
  intros Hc Htruthy Hcfg. rewrite disconnect_eq. cbv zeta.
  rewrite Hc. simpl. rewrite Htruthy, Hcfg.
  destruct (drivers (self r) !! driver cfg) as [d|]; [|done].
  by destruct (driver_disconnect d c (world r)) as [[e|[]] w].
Qed.

Lemma disconnect_same_default conn r :
  defaultConnection (self (disconnect conn r).2) = defaultConnection (self r) /\
  connections (self (disconnect conn r).2) = connections (self r) /\
  drivers (self (disconnect conn r).2) = drivers (self r).
Proof.
  rewrite disconnect_eq. cbv zeta.
  destruct (truthy _); [|done].
  destruct (connections (self r) !! _) as [cfg|]; [|done].
  destruct (drivers (self r) !! driver cfg) as [d|]; [|done].
  by destruct (driver_disconnect d _ (world r)) as [[e|[]] w].
Qed.

(** The clients a list of names needs for all their [disconnect]s to end
    well. *)
Definition disconnectable m (names : list string) : Prop :=
  Forall (fun name =>
            name <> "" /\
            (exists c, clients m !! name = Some c /\ truthy c = true) /\
            is_Some (connections m !! name)) names.

Lemma settle_all_succeeds (names : list string) r :
  disconnectable (self r) names ->
  (settle_all (List.map (fun name => disconnect (Some name)) names) r).1
    = inr tt /\
  defaultConnection
    (self (settle_all
             (List.map (fun name => disconnect (Some name)) names) r).2)
    = defaultConnection (self r) /\
  connections
    (self (settle_all
             (List.map (fun name => disconnect (Some name)) names) r).2)
    = connections (self r) /\
  drivers
    (self (settle_all
             (List.map (fun name => disconnect (Some name)) names) r).2)
    = drivers (self r).
Proof.
  revert r. induction names as [|name names IH]; intros r Hall; simpl;
    [done|].
  apply Forall_cons in Hall as [(Hne & (c & Hc & Htruthy) & [cfg Hcfg]) Hall].
  assert (Hname : str_or (Some name) (defaultConnection (self r)) = name).
  { simpl. by apply String.eqb_neq in Hne as ->. }
  pose proof (disconnect_succeeds (Some name) r c cfg) as Hok.
  rewrite Hname in Hok. specialize (Hok Hc Htruthy Hcfg).
  pose proof (disconnect_same_default (Some name) r) as (Hd & Hconn & Hdrv).
  pose proof (disconnect_unmarks_only (Some name) r) as [Hcl _].
  destruct (disconnect (Some name) r) as [[e|[]] r']; simpl in *; [done|].
  destruct (IH r') as (H1 & H2 & H3 & H4).
  { unfold disconnectable in *. rewrite Hcl, Hconn. exact Hall. }
  repeat split; congruence.
Qed.

Lemma disconnectAll_eq r :
  disconnectAll r =
    match settle_all
            (List.map (fun name => disconnect (Some name))
               (map_to_list (clients (self r))).*1) r with
    | (inl e, r') => (inl e, r')
    | (inr _, r') =>
        (inr tt,
         {| self := set_connectedClients ∅ (set_clients ∅ (self r'));
            world := world r';
            log := log r' |})
    end.
Proof.
  unfold disconnectAll, bind at 1, get. simpl. unfold bind at 1.
  by destruct (settle_all _ r) as [[e|[]] r'].
Qed.

(** When every stored client is an object, stored under a name that is not
    empty, for a configured connection, [disconnectAll] ends well whatever
    the drivers do, also when they fail; afterwards no client is stored and
    no connection is marked, and configurations, drivers and default
    connection are as before. *)
Theorem disconnectAll_empties_cache r :
  (forall name c,
     clients (self r) !! name = Some c ->
     name <> "" /\ truthy c = true /\ is_Some (connections (self r) !! name)) ->
  let after := (disconnectAll r).2 in
  (disconnectAll r).1 = inr tt /\
  clients (self after) = ∅ /\
  connectedClients (self after) = ∅ /\
  defaultConnection (self after) = defaultConnection (self r) /\
  connections (self after) = connections (self r) /\
  drivers (self after) = drivers (self r) /\
  forall conn, (isConnected conn after).1 = inr false.
Proof.
  intros Hall after. subst after.
  assert (Hnames : disconnectable (self r)
                     (map_to_list (clients (self r))).*1).
  { apply Forall_forall. intros name Hin.
    apply list_elem_of_fmap in Hin as [[name' c] [-> Hin]].
    apply elem_of_map_to_list in Hin. simpl in *.
    destruct (Hall name' c Hin) as (? & ? & ?). eauto. }
  pose proof (settle_all_succeeds _ r Hnames) as (Hok & Hd & Hconn & Hdrv).
  rewrite disconnectAll_eq.
  destruct (settle_all _ r) as [[e|[]] r']; simpl in *; [done|].
  do 6 (split; [done|]).
  intros conn. unfold isConnected, bind, get, ret. simpl. f_equal.
Qed.

(** A client registered under a name that is not empty, with a registered
    driver, is what [client(name)] returns from then on, and what the
    accessor of its driver returns, the other accessor returning [null]; the
    connection counts as connected, and no call has reached a driver. *)
Theorem registered_client_is_served name c drv r :
  name <> "" ->
  is_Some (drivers (self r) !! drv) ->
  let after := (registerClient name c drv r).2 in
  (registerClient name c drv r).1 = inr tt /\
  world after = world r /\
  log after = log r /\
  client (Some name) after = (inr c, after) /\
  prisma (Some name) after
    = (inr (if String.eqb drv "prisma" then c else Null), after) /\
  drizzle (Some name) after
    = (inr (if String.eqb drv "drizzle" then c else Null), after) /\
  (isConnected (Some name) after).1 = inr true /\
  forall name', name' <> name ->
    clients (self after) !! name' = clients (self r) !! name'.
Proof.
  intros Hne [d Hd] after. subst after.
  rewrite registerClient_eq, Hd. simpl.
  assert (Hname : forall dflt, str_or (Some name) dflt = name).
  { intros dflt. simpl. by apply String.eqb_neq in Hne as ->. }
  split; [done|]. split; [done|]. split; [done|].
  split; [|split; [|split; [|split]]].
  - rewrite client_eq, Hname, getOrCreateClient_eq. simpl.
    by rewrite lookup_insert_eq.
  - rewrite prisma_eq. cbv zeta. rewrite Hname. simpl.
    rewrite lookup_insert_eq. simpl.
    destruct (String.eqb drv "prisma"); [|done].
    rewrite getOrCreateClient_eq. simpl. by rewrite lookup_insert_eq.
  - rewrite drizzle_eq. cbv zeta. rewrite Hname. simpl.
    rewrite lookup_insert_eq. simpl.
    destruct (String.eqb drv "drizzle"); [|done].
    rewrite getOrCreateClient_eq. simpl. by rewrite lookup_insert_eq.
  - unfold isConnected, bind, get, ret. simpl.
    apply String.eqb_neq in Hne. rewrite Hne. f_equal.
    apply bool_decide_eq_true. set_solver.
  - intros name' Hne'. by rewrite lookup_insert_ne.
Qed.

Lemma setDefaultConnection_eq name r :
  setDefaultConnection name r =
    match connections (self r) !! name with
    | None => (inl (DatabaseConnectionNotConfiguredError name), r)
    | Some _ =>
        (inr tt, {| self := set_defaultConnection name (self r);
                    world := world r; log := log r |})
    end.
Proof.
  unfold setDefaultConnection, bind, get. simpl.
  by destruct (connections (self r) !! name).
Qed.

(** [setDefaultConnection(name)] throws for a name without configuration
    and changes nothing then; for a configured name it makes [name] the
    connection that the methods address when they are called without a
    connection, and touches neither clients nor configurations nor
    drivers. *)
Theorem setDefaultConnection_redirects name r :
  match connections (self r) !! name with
  | None =>
      setDefaultConnection name r
        = (inl (DatabaseConnectionNotConfiguredError name), r)
  | Some _ =>
      let after := (setDefaultConnection name r).2 in
      (setDefaultConnection name r).1 = inr tt /\
      getDefaultConnection after = (inr name, after) /\
      client None after = client (Some name) after /\
      prisma None after = prisma (Some name) after /\
      drizzle None after = drizzle (Some name) after /\
      disconnect None after = disconnect (Some name) after /\
      isConnected None after = isConnected (Some name) after /\
      clients (self after) = clients (self r) /\
      connections (self after) = connections (self r) /\
      drivers (self after) = drivers (self r)
  end.
Proof.
  rewrite setDefaultConnection_eq.
  destruct (connections (self r) !! name) as [cfg|]; [|done].
  simpl.
  assert (Hname : str_or (Some name) name = name) by apply str_or_default.
  repeat split.
  - rewrite !client_eq. simpl defaultConnection. by rewrite Hname.
  - rewrite !prisma_eq. cbv zeta. simpl defaultConnection. by rewrite Hname.
  - rewrite !drizzle_eq. cbv zeta. simpl defaultConnection. by rewrite Hname.
  - rewrite !disconnect_eq. cbv zeta. simpl defaultConnection.
    by rewrite Hname.
  - unfold isConnected, bind, get, ret. simpl defaultConnection.
    simpl self. by rewrite Hname.
Qed.

(** [registerDriver(name, driver)] makes [driver] the one found under
    [name], also in place of a built-in driver, and leaves the other names
    and the stored clients alone: clients created from then on for a
    connection configured with [name] come from [driver]. *)
Theorem registered_driver_is_used n d r name cfg :
  let after := (registerDriver n d r).2 in
  (registerDriver n d r).1 = inr tt /\
  getDriver n after = (inr d, after) /\
  (forall n', n' <> n -> (getDriver n' after).1 = (getDriver n' r).1) /\
  clients (self after) = clients (self r) /\
  connections (self after) = connections (self r) /\
  (driver cfg = n ->
   (createClient name cfg after).1 =
     match (driver_createClient d cfg name (world r)).1 with
     | inr c => inr c
     | inl e => inl (DatabaseClientCreationError n e)
     end).
Proof.
  intros after. subst after. unfold registerDriver, modify. simpl.
  split; [done|]. split; [|split; [|split; [done|split; [done|]]]].
  - rewrite getDriver_eq. simpl. by rewrite lookup_insert_eq.
  - intros n' Hne. rewrite !getDriver_eq. simpl.
    rewrite lookup_insert_ne by done.
    by destruct (drivers (self r) !! n').
  - intros <-. rewrite createClient_eq. simpl. rewrite lookup_insert_eq.
    by destruct (driver_createClient d cfg name (world r)) as [[e|c] w].
Qed.


End Operations.

Definition reporting : Run unit (DatabaseManager unit) :=
  (registerClient "reports" drizzle_client "drizzle" fresh).2.

Lemma disconnect_keeps_client_witness :
  clients (self reporting) !! "reports" = Some drizzle_client /\
  truthy drizzle_client = true /\
  connections (self reporting) !! "reports"
    = Some {| driver := "drizzle"; url := None; connection := None;
              pool := None |} /\
  drivers (self reporting) !! "drizzle"
    = Some (DrizzleDriver unreachable_server) /\
  driver_disconnect (DrizzleDriver unreachable_server) drizzle_client tt
    = (inr tt, tt) /\
  (isConnected (Some "reports") (disconnect (Some "reports") reporting).2).1
    = inr false /\
  client (Some "reports") (disconnect (Some "reports") reporting).2
    = (inr drizzle_client, (disconnect (Some "reports") reporting).2).
Proof.
  assert (H1 : clients (self reporting) !! "reports" = Some drizzle_client)
    by reflexivity.
  assert (H2 : truthy drizzle_client = true) by reflexivity.
  assert (H3 : connections (self reporting) !! "reports"
               = Some {| driver := "drizzle"; url := None;
                         connection := None; pool := None |}) by reflexivity.
  assert (H4 : drivers (self reporting) !! "drizzle"
               = Some (DrizzleDriver unreachable_server)) by reflexivity.
  assert (H5 : driver_disconnect (DrizzleDriver unreachable_server)
                 drizzle_client tt = (inr tt, tt)) by reflexivity.
  repeat (split; [assumption|]).
  pose proof (disconnect_keeps_client (Some "reports") reporting
                drizzle_client _ _ tt H1 H2 H3 H4 H5)
    as (_ & Hcon & _ & Hcl).
  split; [exact Hcon | exact Hcl].
Defined.

Lemma disconnectAll_empties_cache_witness :
  (forall name c,
     clients (self reporting) !! name = Some c ->
     name <> "" /\ truthy c = true /\
     is_Some (connections (self reporting) !! name)) /\
  (disconnectAll reporting).1 = inr tt /\
  clients (self (disconnectAll reporting).2) = ∅.
Proof.
  assert (H : forall name c,
             clients (self reporting) !! name = Some c ->
             name <> "" /\ truthy c = true /\
             is_Some (connections (self reporting) !! name)).
  { assert (Hcl : clients (self reporting)
                    = <["reports" := drizzle_client]> ∅) by reflexivity.
    intros name c. rewrite Hcl.
    intros [[<- <-]|[_ Hc]]%lookup_insert_Some;
      [|by rewrite lookup_empty in Hc].
    split; [done|]. split; [done|]. eexists. reflexivity. }
  split; [exact H|].
  pose proof (disconnectAll_empties_cache reporting H) as (Hres & Hcl & _).
  split; [exact Hres | exact Hcl].
Defined.

Lemma registered_client_is_served_witness :
  "reports" <> "" /\
  is_Some (drivers (self fresh) !! "drizzle") /\
  client (Some "reports") reporting = (inr drizzle_client, reporting) /\
  prisma (Some "reports") reporting = (inr Null, reporting).
Proof.
  assert (H1 : "reports" <> "") by discriminate.
  assert (H2 : is_Some (drivers (self fresh) !! "drizzle"))
    by (eexists; reflexivity).
  split; [exact H1|]. split; [exact H2|].
  pose proof (registered_client_is_served "reports" drizzle_client "drizzle"
                fresh H1 H2) as (_ & _ & _ & Hc & Hp & _).
  split; [exact Hc | exact Hp].
Defined.

End ManagerRuns.

(** ** The Drizzle client of the module *)

Module DrizzleClientFacts.
Import Js Database DatabaseFacts DrizzleClientManager.

Section Singleton.

Context {W : Type}.

Variable lib : Libraries W.

Implicit Types (s : Variables * W).

Lemma getDrizzleClient_cached u s :
  truthy (drizzleClient s.1) = true ->
  getDrizzleClient lib u s = (inr (drizzleClient s.1), s).
Proof. destruct s as [vars w]. simpl. by intros ->. Qed.

(** Once [getDrizzleClient] has returned a client, every later call returns
    that client, whatever connection string it is given, and calls no
    library: the module has one client, made for the first URL. *)
Theorem drizzle_client_is_shared u u' s c s' :
  getDrizzleClient lib u s = (inr c, s') ->
  truthy c = true ->
  getDrizzleClient lib u' s' = (inr c, s') /\
  drizzleClient s'.1 = c.
Proof.
  intros Hget Htruthy.
  assert (Hc : drizzleClient s'.1 = c).
  { destruct s as [vars w]. simpl in Hget.
    destruct (truthy (drizzleClient vars)); [by injection Hget as <- <-|].
    destruct (match u with
              | Some u0 => if string_truthy u0 then Some u0
                           else DATABASE_URL lib w
              | None => DATABASE_URL lib w
              end) as [url|]; [|done].
    destruct (negb (string_truthy url)); [done|].
    destruct (postgres lib url w) as [[e|conn] w1]; [done|].
    destruct (drizzle_orm lib conn w1) as [[e|c'] w2]; [done|].
    by injection Hget as <- <-. }
  split; [|done].
  rewrite getDrizzleClient_cached; rewrite Hc; done.
Qed.

(** Without a client, [getDrizzleClient] throws that the URL is not defined
    when it is given no connection string, or an empty one, and the
    environment has none either, or an empty one; it calls no library and
    leaves the module as it was. *)
Theorem drizzle_client_needs_url u vars w :
  truthy (drizzleClient vars) = false ->
  (u = None \/ u = Some "") ->
  (DATABASE_URL lib w = None \/ DATABASE_URL lib w = Some "") ->
  getDrizzleClient lib u (vars, w)
    = (inl (JsError "DATABASE_URL is not defined"), (vars, w)).
Proof.
  intros Hnone Hu Henv. simpl. rewrite Hnone.
  destruct Hu as [->| ->], Henv as [->| ->]; done.
Qed.

(** The calls of the module. *)
Inductive Call : Type :=
| get_client (connectionString : option string)
| disconnect_client
| reset_connection.

Definition run_call (c : Call) s : Variables * W :=
  match c with
  | get_client u => (getDrizzleClient lib u s).2
  | disconnect_client => (disconnectDrizzleClient lib s).2
  | reset_connection => resetDrizzleConnection s
  end.

(** The module is in its first state, or it holds a connection. *)
Definition first_or_connected (vars : Variables) : Prop :=
  vars = initial \/ truthy (postgresConnection vars) = true.

(** [postgres()] returns objects. *)
Definition postgres_returns_objects : Prop :=
  forall u w conn w',
    postgres lib u w = (inr conn, w') -> truthy conn = true.

Lemma run_call_connected c s :
  postgres_returns_objects ->
  first_or_connected s.1 -> first_or_connected (run_call c s).1.
Proof.
  intros Hpg Hinv. destruct s as [vars w]. destruct c as [u| |]; simpl.
  - destruct (truthy (drizzleClient vars)) eqn:Hcl; [done|].
    destruct (match u with
              | Some u0 => if string_truthy u0 then Some u0
                           else DATABASE_URL lib w
              | None => DATABASE_URL lib w
              end) as [url|]; [|done].
    destruct (negb (string_truthy url)); [done|].
    destruct (postgres lib url w) as [[e|conn] w1] eqn:Hconn; [done|].
    apply Hpg in Hconn.
    by destruct (drizzle_orm lib conn w1) as [[e|c'] w2]; right.
  - destruct (truthy (postgresConnection vars)) eqn:Hconn; [|done].
    destruct (connection_end lib (postgresConnection vars) w)
      as [[e|[]] w1]; simpl; [by right | by left].
  - by left.
Qed.

(** In every run of the module from its first state, with a [postgres()]
    that returns objects, a [disconnectDrizzleClient] that ends well leaves
    no client behind, though it clears the client only when there is a
    connection: the next [getDrizzleClient] cannot return a client whose
    connection was ended. *)
Theorem disconnected_client_is_dropped w (calls : list Call) :
  postgres_returns_objects ->
  let s := foldl (fun s c => run_call c s) (initial, w) calls in
  (disconnectDrizzleClient lib s).1 = inr tt ->
  (disconnectDrizzleClient lib s).2.1 = initial.
Proof.
  intros Hpg s Hok.
  assert (Hinv : first_or_connected s.1).
  { subst s. clear Hok. induction calls as [|c calls IH] using rev_ind.
    - by left.
    - rewrite foldl_app. cbn [foldl].
      apply run_call_connected; [exact Hpg | exact IH]. }
  destruct s as [vars w0]. simpl in *.
  destruct (truthy (postgresConnection vars)) eqn:Hconn.
  - by destruct (connection_end lib (postgresConnection vars) w0)
      as [[e|[]] w1].
  - destruct Hinv as [->|Hinv]; [done|congruence].
Qed.

End Singleton.

(** The manager over the module: its Drizzle driver takes the client from
    [getDrizzleClient]. *)
Section Sharing.

Context {W : Type}.

Variable lib : Libraries W.
Variable getPrismaClient : Variables * W -> (Exn + Value) * (Variables * W).
Variable invoke_with :
  Value -> string -> Callback (Variables * W) ->
  Variables * W -> (Exn + Value) * (Variables * W).
Variable invoke :
  Value -> string -> Variables * W -> (Exn + unit) * (Variables * W).

Definition module_externals : Externals (Variables * W) :=
  with_module lib getPrismaClient invoke_with invoke.

Implicit Types (r : Run (Variables * W) (DatabaseManager (Variables * W)))
  (cfg : ConnectionConfig).

(** The URL the Drizzle driver asks with. *)
Definition resolved_url cfg : option string :=
  match url cfg with
  | Some u => Some u
  | None => buildUrlFromConnection cfg
  end.

Lemma drizzle_createClient cfg name (s : Variables * W) c s' :
  driver_createClient (DrizzleDriver module_externals) cfg name s
    = (inr c, s') ->
  exists u, getDrizzleClient lib (Some u) s = (inr c, s').
Proof.
  simpl. fold (resolved_url cfg).
  destruct (resolved_url cfg) as [u|]; [|done].
  destruct (string_truthy u); [|done]. eauto.
Qed.

Lemma getDrizzleClient_stores u (s : Variables * W) c s' :
  getDrizzleClient lib u s = (inr c, s') -> drizzleClient s'.1 = c.
Proof.
  destruct s as [vars w]. simpl. intros Hget.
  destruct (truthy (drizzleClient vars)); [by injection Hget as <- <-|].
  destruct (match u with
            | Some u0 => if string_truthy u0 then Some u0
                         else DATABASE_URL lib w
            | None => DATABASE_URL lib w
            end) as [url|]; [|done].
  destruct (negb (string_truthy url)); [done|].
  destruct (postgres lib url w) as [[e|conn] w1]; [done|].
  destruct (drizzle_orm lib conn w1) as [[e|c'] w2]; [done|].
  by injection Hget as <- <-.
Qed.

(** Two connections of the manager that use the built-in Drizzle driver get
    the same client: once [client(a)] has created the client of [a], the
    first [client(b)] of another Drizzle connection [b] returns that very
    client, whatever URL [b] is configured with, and nothing is connected
    for [b]: the module and the servers are as [client(a)] left them. *)
Theorem drizzle_connections_share_client a b cfga cfgb r c r1 ub :
  a <> "" -> b <> "" -> a <> b ->
  drivers (self r) !! "drizzle" = Some (DrizzleDriver module_externals) ->
  connections (self r) !! a = Some cfga -> driver cfga = "drizzle" ->
  connections (self r) !! b = Some cfgb -> driver cfgb = "drizzle" ->
  resolved_url cfgb = Some ub -> ub <> "" ->
  clients (self r) !! a = None ->
  clients (self r) !! b = None ->
  client (Some a) r = (inr c, r1) ->
  truthy c = true ->
  (client (Some b) r1).1 = inr c /\
  world (client (Some b) r1).2 = world r1 /\
  clients (self (client (Some b) r1).2) !! a = Some c /\
  clients (self (client (Some b) r1).2) !! b = Some c.
Proof.
  intros Ha Hb Hab Hdrv Hcfga Hda Hcfgb Hdb Hurl Hub Hnoa Hnob Hfirst Htruthy.
  assert (Hname : forall n dflt, n <> "" -> str_or (Some n) dflt = n).
  { intros n dflt Hn. simpl. by apply String.eqb_neq in Hn as ->. }
  rewrite client_eq, Hname in Hfirst by done.
  rewrite getOrCreateClient_eq, Hnoa, Hcfga, createClient_eq, Hda, Hdrv
    in Hfirst.
  cbv zeta in Hfirst.
  destruct (driver_createClient (DrizzleDriver module_externals) cfga a
              (world r)) as [[e|c0] s1] eqn:Hcreate; [done|].
  injection Hfirst as -> <-.
  apply drizzle_createClient in Hcreate as [ua Hget].
  apply getDrizzleClient_stores in Hget as Hstored.
  rewrite client_eq, Hname by done.
  rewrite getOrCreateClient_eq. simpl.
  rewrite lookup_insert_ne, Hnob, Hcfgb by done.
  rewrite createClient_eq. simpl. rewrite Hdb, Hdrv. simpl.
  fold (resolved_url cfgb). rewrite Hurl.
  apply String.eqb_neq in Hub. unfold string_truthy. rewrite Hub. simpl.
  destruct s1 as [vars1 w1]. simpl in *. rewrite Hstored, Htruthy. simpl.
  split; [done|]. split; [done|].
  rewrite lookup_insert_ne by done.
  by rewrite !lookup_insert_eq.
Qed.

End Sharing.

(** A server that notes the URLs it is connected with; the environment has
    no [DATABASE_URL]. *)
Definition local_postgres : Libraries (list string) :=
  {| postgres := fun u w =>
       (inr (Function [("end", Function [] Null)] Null), (w ++ [u])%list);
     drizzle_orm := fun _ w => (inr drizzle_client, w);
     connection_end := fun _ w => (inr tt, w);
     DATABASE_URL := fun _ => None |}.

Definition app_url : string := "postgresql://localhost:5432/app".
Definition reports_url : string := "postgresql://warehouse:5432/reports".

Definition connected_to_app : Variables * list string :=
  (getDrizzleClient local_postgres (Some app_url) (initial, [])).2.

Lemma drizzle_client_is_shared_witness :
  getDrizzleClient local_postgres (Some app_url) (initial, [])
    = (inr drizzle_client, connected_to_app) /\
  truthy drizzle_client = true /\
  getDrizzleClient local_postgres (Some reports_url) connected_to_app
    = (inr drizzle_client, connected_to_app) /\
  connected_to_app.2 = [app_url].
Proof.
  assert (H1 : getDrizzleClient local_postgres (Some app_url) (initial, [])
               = (inr drizzle_client, connected_to_app)) by reflexivity.
  assert (H2 : truthy drizzle_client = true) by reflexivity.
  split; [exact H1|]. split; [exact H2|].
  split; [|reflexivity].
  exact (proj1 (drizzle_client_is_shared local_postgres (Some app_url)
                  (Some reports_url) (initial, []) drizzle_client
                  connected_to_app H1 H2)).
Defined.

Lemma drizzle_client_needs_url_witness :
  truthy (drizzleClient initial) = false /\
  getDrizzleClient local_postgres (Some "") (initial, [])
    = (inl (JsError "DATABASE_URL is not defined"), (initial, [])).
Proof.
  assert (H : truthy (drizzleClient initial) = false) by reflexivity.
  split; [exact H|].
  exact (drizzle_client_needs_url local_postgres (Some "") initial [] H
           (or_intror eq_refl) (or_introl eq_refl)).
Defined.

Lemma local_postgres_returns_objects : postgres_returns_objects local_postgres.
Proof. intros u w conn w' [= <- _]. reflexivity. Defined.

Lemma disconnected_client_is_dropped_witness :
  (disconnectDrizzleClient local_postgres
     (foldl (fun s c => run_call local_postgres c s) (initial, [])
        [get_client (Some app_url); disconnect_client;
         get_client (Some reports_url)])).1 = inr tt /\
  (disconnectDrizzleClient local_postgres
     (foldl (fun s c => run_call local_postgres c s) (initial, [])
        [get_client (Some app_url); disconnect_client;
         get_client (Some reports_url)])).2
    = (initial, [app_url; reports_url]).
Proof.
  assert (H : (disconnectDrizzleClient local_postgres
                 (foldl (fun s c => run_call local_postgres c s) (initial, [])
                    [get_client (Some app_url); disconnect_client;
                     get_client (Some reports_url)])).1 = inr tt)
    by reflexivity.
  split; [exact H|].
  pose proof (disconnected_client_is_dropped local_postgres []
                [get_client (Some app_url); disconnect_client;
                 get_client (Some reports_url)]
                local_postgres_returns_objects H) as Hdropped.
  apply injective_projections; [exact Hdropped | reflexivity].
Defined.

(** A manager with two Drizzle connections, over the module. *)
Definition app_and_reports : DatabaseConfig :=
  {| config_default := "app";
     config_connections :=
       [("app", {| driver := "drizzle"; url := Some app_url;
                   connection := None; pool := None |});
        ("reports", {| driver := "drizzle"; url := Some reports_url;
                       connection := None; pool := None |})] |}.

Definition module_server : Externals (Variables * list string) :=
  module_externals local_postgres
    (fun s => (inr prisma_client, s))
    (fun c _ callback s => callback c s)
    (fun _ _ s => (inr tt, s)).

Definition started
  : Run (Variables * list string) (DatabaseManager (Variables * list string)) :=
  {| self := new_manager module_server app_and_reports;
     world := (initial, []);
     log := [] |}.

Lemma drizzle_connections_share_client_witness :
  client (Some "app") started
    = (inr drizzle_client, (client (Some "app") started).2) /\
  (client (Some "reports") (client (Some "app") started).2).1
    = inr drizzle_client /\
  (world (client (Some "reports") (client (Some "app") started).2).2).2
    = [app_url].
Proof.
  assert (Hfirst : client (Some "app") started
                   = (inr drizzle_client, (client (Some "app") started).2))
    by reflexivity.
  split; [exact Hfirst|].
  pose proof (drizzle_connections_share_client local_postgres
                (fun s => (inr prisma_client, s))
                (fun c _ callback s => callback c s)
                (fun _ _ s => (inr tt, s))
                "app" "reports"
                {| driver := "drizzle"; url := Some app_url;
                   connection := None; pool := None |}
                {| driver := "drizzle"; url := Some reports_url;
                   connection := None; pool := None |}
                started drizzle_client (client (Some "app") started).2
                reports_url
                ltac:(discriminate) ltac:(discriminate) ltac:(discriminate)
                eq_refl eq_refl eq_refl eq_refl eq_refl eq_refl
                ltac:(discriminate) eq_refl eq_refl Hfirst eq_refl)
    as (Hsecond & Hworld & _).
  split; [exact Hsecond|].
  rewrite Hworld. reflexivity.
Defined.

End DrizzleClientFacts.

(** ** The [DB] facade before and after it has a manager *)

Module FacadeRuns.
Import Js Database DatabaseFacts.

Section Facade.

Context {World : Type}.

Variable ext : Externals World.

Implicit Types (r : Run World (DB.DBFacade World)).

(** [DB.reset()] drops the manager without a call to any driver, so the
    clients it held are not disconnected; from then on the accessors and
    every operation that goes through [getManager()] throw
    [DatabaseNotInitializedError] and change nothing. *)
Theorem reset_facade_throws r conn :
  let after := (DB.reset r).2 in
  world after = world r /\
  log after = log r /\
  DB.prisma conn after = (inl DatabaseNotInitializedError, after) /\
  DB.drizzle conn after = (inl DatabaseNotInitializedError, after) /\
  DB.client conn after = (inl DatabaseNotInitializedError, after) /\
  forall (A : Type) (op : M World (DatabaseManager World) A),
    DB.on_manager op after = (inl DatabaseNotInitializedError, after).
Proof. by repeat split. Qed.

(** The manager [DB.register] makes when the facade has none. *)
Definition registered_alone (name : string) : DatabaseManager World :=
  new_manager ext {| config_default := name; config_connections := [] |}.

Lemma register_without_manager name c drv r :
  DB.manager (self r) = None ->
  DB.register ext name c drv r =
    let cfg := {| config_default := name; config_connections := [] |} in
    match drivers (registered_alone name) !! drv with
    | None =>
        (inl (UnsupportedDatabaseDriverError drv),
         {| self := {| DB.manager := Some (registered_alone name);
                       DB.config := Some cfg |};
            world := world r;
            log := log r |})
    | Some _ =>
        (inr tt,
         {| self :=
              {| DB.manager :=
                   Some {| defaultConnection := name;
                           connections :=
                             <[name := {| driver := drv; url := None;
                                          connection := None;
                                          pool := None |}]> ∅;
                           clients := <[name := c]> ∅;
                           connectedClients := {[name]} ∪ ∅;
                           drivers := drivers (registered_alone name) |};
                 DB.config := Some cfg |};
            world := world r;
            log := log r |})
    end.
Proof.
  intros Hnone. unfold DB.register, bind, get. simpl. rewrite Hnone. simpl.
  unfold DB.on_manager. simpl. rewrite registerClient_eq. simpl.
  by destruct (_ !! drv).
Qed.

(** [DB.register(name, client, driver)] on a facade without a manager makes
    one whose default connection is [name]. With a built-in driver the
    client is then what [DB.client()] returns without a connection name, and
    no driver has been called. With any other driver name the registration
    throws [UnsupportedDatabaseDriverError], yet the facade keeps the
    manager it has just made: [DB.client()] then throws that [name] is not
    configured, not that the database is not initialised. *)
Theorem register_initialises name c drv r :
  DB.manager (self r) = None ->
  let after := (DB.register ext name c drv r).2 in
  world after = world r /\
  log after = log r /\
  if bool_decide (drv = "prisma" \/ drv = "drizzle") then
    (DB.register ext name c drv r).1 = inr tt /\
    DB.client None after = (inr c, after) /\
    DB.client (Some name) after = (inr c, after) /\
    (DB.on_manager getDefaultConnection after).1 = inr name
  else
    (DB.register ext name c drv r).1
      = inl (UnsupportedDatabaseDriverError drv) /\
    DB.manager (self after) = Some (registered_alone name) /\
    (DB.client None after).1
      = inl (DatabaseConnectionNotConfiguredError name).
Proof.
  intros Hnone after. subst after.
  rewrite register_without_manager by done. cbv zeta.
  case_bool_decide as Hdrv.
  - assert (Hd : is_Some (drivers (registered_alone name) !! drv)).
    { destruct Hdrv as [->| ->]; eexists; reflexivity. }
    destruct Hd as [d Hd]. rewrite Hd. simpl.
    split; [done|]. split; [done|]. split; [done|].
    unfold DB.client, DB.on_manager. simpl.
    rewrite !client_eq. simpl.
    replace (if String.eqb name "" then name else name) with name
      by (by destruct (String.eqb name "")).
    rewrite !getOrCreateClient_eq. simpl. rewrite lookup_insert_eq.
    done.
  - assert (Hd : drivers (registered_alone name) !! drv = None).
    { unfold registered_alone. simpl.
      rewrite !lookup_insert_ne by (intros <-; tauto). done. }
    rewrite Hd. simpl.
    split; [done|]. split; [done|]. split; [done|]. split; [done|].
    unfold DB.client, DB.on_manager. simpl.
    rewrite client_eq. simpl. rewrite getOrCreateClient_eq. simpl.
    by rewrite !lookup_empty.
Qed.

End Facade.

Definition untouched : Run unit (DB.DBFacade unit) :=
  {| self := {| DB.manager := None; DB.config := None |};
     world := tt;
     log := [] |}.

Lemma register_initialises_witness :
  DB.manager (self untouched) = None /\
  DB.client None
    (DB.register unreachable_server "main" prisma_client "prisma" untouched).2
    = (inr prisma_client,
       (DB.register unreachable_server "main" prisma_client "prisma"
          untouched).2).
Proof.
  split; [reflexivity|].
  pose proof (register_initialises unreachable_server "main" prisma_client
                "prisma" untouched eq_refl) as (_ & _ & H).
  exact (proj1 (proj2 H)).
Defined.

End FacadeRuns.

(** ** The response builder *)

Module BuilderFacts.
Import Js FrameworkError ApiResponse ApiHelpers ApiResponseBuilder.

Section Facts.

Context {Schema : Type}.

Variable validate : Value -> Schema -> ErrorResponse + Value.
Variable object_prototype : Value.

(** The handler of [handle] runs exactly when the last validation passed
    with data other than [null], and it is given that data. A failed
    validation answers with the validator's response; data that passed as
    [null] is answered with status 500, as is a builder that never
    validated. The builder [withZodValidation] is called on plays no part:
    an earlier failure is forgotten. *)
Theorem handler_runs_on_validated_data (R : Type) (this : Builder)
  (handler : Value -> R) data (schema : Schema) :
  let built := withZodValidation validate this data schema in
  let no_data := returnInternalServerError "No validated data available" None in
  status no_data = Num 500 /\
  body no_data !! "detail" = Some (Str "No validated data available") /\
  handle create handler = inl no_data /\
  then_ built handler = handle built handler /\
  match validate data schema with
  | inl response => handle built handler = inl response
  | inr Null => handle built handler = inl no_data
  | inr d => handle built handler = inr (handler d)
  end.
Proof.
  simpl. split; [done|]. split; [done|]. split; [done|]. split; [done|].
  unfold withZodValidation.
  destruct (validate data schema) as [response|d]; [done|].
  by destruct d.
Qed.

(** [executeWithSuccess] answers with a response in every case: what its
    handler returns is passed on untouched when it is an object with a
    [status] and a [body], own or inherited, and is made the body of a
    response with status 200 otherwise, also when it is [null] or
    [undefined]. *)
Theorem executeWithSuccess_answers_with_response (this : Builder)
  (handler : Value -> Value) :
  match executeWithSuccess object_prototype this handler with
  | inl response =>
      handle this handler = inl response
  | inr v =>
      is_response v = true /\
      exists result,
        handle this handler = inr result /\
        if is_response result then v = result
        else v = Object [("status", Num 200); ("body", result)]
                   object_prototype
  end.
Proof.
  unfold executeWithSuccess, handle.
  destruct (validationError this) as [response|]; [done|].
  destruct (validatedData this) as [| |p|props proto|props proto|p props proto];
    try done.
  all: set (result := handler _).
  all: split; [by destruct (is_response result) eqn:E|].
  all: exists result; split; [done|].
  all: by destruct (is_response result).
Qed.

End Facts.

End BuilderFacts.

(** ** Telling error codes apart *)

Module ErrorCodeFacts.
Import Js FrameworkError ErrorFacts.

Lemma code_value_inj c1 c2 : code_value c1 = code_value c2 -> c1 = c2.
Proof. destruct c1, c2; simpl; intros H; try reflexivity; discriminate H. Qed.

(** [isErrorCode] is true for the code the error was made with and for no
    other: no two members of [ErrorCode] stand for the same string. The
    status of the error is then the one the table gives that code. *)
Theorem isErrorCode_identifies_code cls args now c :
  let e := construct cls args now in
  (isErrorCode e c = true <-> arg_code args = c) /\
  (isErrorCode e c = true -> httpStatusCode e = ErrorCodeToHttpStatus c).
Proof.
  simpl. unfold isErrorCode. simpl.
  assert (Hiff : String.eqb (code_value (arg_code args)) (code_value c) = true
                 <-> arg_code args = c).
  { rewrite String.eqb_eq. split; [apply code_value_inj | by intros ->]. }
  split; [exact Hiff|].
  intros H. apply Hiff in H. by rewrite H.
Qed.

End ErrorCodeFacts.

(** ** Configuration keys and their prefixes *)

Module ConfigKeyFacts.
Import Js Config ConfigFacts.

Lemma split_go_append sep cur a b :
  split_go sep cur (a ++ String.String sep b)
    = (split_go sep cur a ++ split_go sep "" b)%list.
Proof.
  revert cur. induction a as [|c a IH]; intros cur; simpl.
  - by rewrite Ascii.eqb_refl.
  - destruct (Ascii.eqb c sep); simpl; by rewrite IH.
Qed.

Lemma walk_append keys keys' v :
  walk (keys ++ keys') v =
    match walk keys v with
    | Some v' => walk keys' v'
    | None => None
    end.
Proof.
  revert v. induction keys as [|k keys IH]; intros v; simpl; [done|].
  by destruct (descend v k).
Qed.

Section Keys.

Variable make : string -> Exn + Value.

(** A key that [hasConfig] finds has every prefix that ends before a dot
    found as well, and [config] returns for the longer key what walking the
    rest of it from the value of the prefix gives. *)
Theorem hasConfig_prefix a b :
  hasConfig make (a ++ "." ++ b) = true ->
  hasConfig make a = true /\
  exists configs va vb,
    make "config" = inr configs /\
    walk (split "." a) configs = Some va /\
    walk (split "." b) va = Some vb /\
    forall d, config make a d = inr va /\ config make (a ++ "." ++ b) d = inr vb.
Proof.
  unfold hasConfig, config, split.
  destruct (make "config") as [e|configs]; [done|]. cbv zeta.
  change (a ++ "." ++ b) with (a ++ String.String "."%char b).
  rewrite split_go_append, walk_append.
  destruct (walk (split_go "." "" a) configs) as [va|] eqn:Ha; [|done].
  destruct (walk (split_go "." "" b) va) as [vb|] eqn:Hb; [|done].
  intros _. split; [done|]. by exists configs, va, vb.
Qed.

(** [hasConfig] tells whether [config] uses its default: for a key that
    [hasConfig] finds, [config] returns the same value whatever the default,
    which may be [undefined]; for any other key it returns the default. When
    the container cannot make the configuration, [config] throws and
    [hasConfig] is false. *)
Theorem hasConfig_decides_default key :
  match make "config" with
  | inl e => hasConfig make key = false /\ forall d, config make key d = inl e
  | inr _ =>
      if hasConfig make key
      then exists v, forall d, config make key d = inr v
      else forall d, config make key d = inr d
  end.
Proof.
  unfold hasConfig, config.
  destruct (make "config") as [e|configs]; [done|]. simpl.
  destruct (walk (split "." key) configs) as [v|]; [|done].
  by exists v.
Qed.

End Keys.

Lemma hasConfig_prefix_witness :
  hasConfig mockMake ("database.connections" ++ "." ++ "postgresql.url")
    = true /\
  hasConfig mockMake "database.connections" = true.
Proof.
  assert (H : hasConfig mockMake
                ("database.connections" ++ "." ++ "postgresql.url") = true)
    by reflexivity.
  split; [exact H|].
  exact (proj1 (hasConfig_prefix mockMake "database.connections"
                  "postgresql.url" H)).
Defined.

End ConfigKeyFacts.
